(** * Hospital resource negotiation: agents, orchestrator, fallback ranking

    A shallow embedding of
    - [services/multi_agent_service.py]  ([HospitalAgent],
      [MultiAgentCoordinationService]),
    - [api/routes/multi_agent.py]        ([start_negotiation.event_generator]),
    - [services/langgraph_negotiation_service.py]
      ([_analyze_need], [_evaluate_offers], [_negotiate], paths taken when no
      language model is configured).

    Conventions.
    - Python [str] is [string]; [str.lower] acts on the ASCII letters.
    - Values decoded from the language model's answer are [json] values; a
      Python [dict] is an association list in insertion order.
    - Exceptions of class [Exception] are values of [exn]; a computation that
      may raise returns [res].
    - Wall-clock time stamps and random identifiers ([uuid4]) carry no
      information used by the control flow and are left out of the records;
      so are the pacing delays ([asyncio.sleep]) and the log lines. The
      session a run works on is the object stored in [self.sessions].
    - The chat-completion client and [json.loads] are library code: they are
      parameters of the development ([client], [json_loads]). *)

From Stdlib Require Import List String Ascii Bool Arith ZArith QArith Qminmax Lia Lqa.
From Stdlib Require Import Permutation Sorted.
Import ListNotations.
Local Close Scope Q_scope.
Local Open Scope string_scope.
Local Open Scope list_scope.

Set Implicit Arguments.
Set Warnings "-register-all".

(* ===================================================================== *)
(** ** Python values, exceptions *)
(* ===================================================================== *)

(** What [json.loads] can return. [JFloat] stands for a Python [float]. *)
Inductive json : Type :=
| JNull
| JBool (b : bool)
| JInt (z : Z)
| JFloat (q : Q)
| JStr (s : string)
| JList (l : list json)
| JDict (d : list (string * json)).

(** Python truth value of a decoded value ([if v:]). *)
Definition truthy (v : json) : bool :=
  match v with
  | JNull => false
  | JBool b => b
  | JInt z => negb (Z.eqb z 0)
  | JFloat q => negb (Qeq_bool q 0%Q)
  | JStr s => negb (String.eqb s EmptyString)
  | JList l => match l with [] => false | _ => true end
  | JDict d => match d with [] => false | _ => true end
  end.

Fixpoint assoc {A : Type} (k : string) (d : list (string * A)) : option A :=
  match d with
  | [] => None
  | (k', v) :: d' => if String.eqb k k' then Some v else assoc k d'
  end.

(** The exceptions that occur in the modelled code. [str(e)] is [exn_str]. *)
Inductive exn : Type :=
| JSONDecodeError (msg : string)
| KeyError (key : string)
| AttributeError (msg : string)
| TypeError (msg : string)
| UnboundLocalError (msg : string)
| OtherError (msg : string).

Definition quote (s : string) : string := "'" ++ s ++ "'".

Definition exn_str (e : exn) : string :=
  match e with
  | JSONDecodeError msg => msg
  | KeyError key => quote key
  | AttributeError msg => msg
  | TypeError msg => msg
  | UnboundLocalError msg => msg
  | OtherError msg => msg
  end.

Inductive res (A : Type) : Type :=
| Ok (a : A)
| Raise (e : exn).
Arguments Ok {A} a.
Arguments Raise {A} e.

Definition is_ok {A : Type} (r : res A) : bool :=
  match r with Ok _ => true | Raise _ => false end.

(** [try: body except Exception as e: handler(e)] *)
Definition try_except {A : Type} (body : res A) (handler : exn -> res A) : res A :=
  match body with
  | Ok a => Ok a
  | Raise e => handler e
  end.

(** [d.get(key)] on a decoded value: only a [dict] has [get]. *)
Definition py_get (v : json) (key : string) : res (option json) :=
  match v with
  | JDict d => Ok (assoc key d)
  | _ => Raise (AttributeError "object has no attribute 'get'")
  end.

(** [d[key]] where [d] is known to be a [dict]. *)
Definition py_item (v : json) (key : string) : res json :=
  match v with
  | JDict d => match assoc key d with
               | Some x => Ok x
               | None => Raise (KeyError key)
               end
  | _ => Raise (TypeError "object is not subscriptable")
  end.

Definition opt_truthy (o : option json) : bool :=
  match o with Some v => truthy v | None => false end.

(** Whether [a * b] raises: numbers multiply, a [str] or [list] is repeated
    by an [int] or [bool], anything else is a [TypeError]. *)
Definition is_number (v : json) : bool :=
  match v with JBool _ | JInt _ | JFloat _ => true | _ => false end.
Definition is_integer (v : json) : bool :=
  match v with JBool _ | JInt _ => true | _ => false end.
Definition is_sequence (v : json) : bool :=
  match v with JStr _ | JList _ => true | _ => false end.

Definition py_mul_check (a b : json) : res unit :=
  if (is_number a && is_number b)
     || (is_sequence a && is_integer b)
     || (is_integer a && is_sequence b)
  then Ok tt
  else Raise (TypeError "unsupported operand type(s) for *").

(* ===================================================================== *)
(** ** Text helpers *)
(* ===================================================================== *)

Definition lower_ascii (c : ascii) : ascii :=
  let n := nat_of_ascii c in
  if ((65 <=? n) && (n <=? 90))%nat then ascii_of_nat (n + 32) else c.

(** [s.lower()] *)
Fixpoint lower (s : string) : string :=
  match s with
  | EmptyString => EmptyString
  | String c s' => String (lower_ascii c) (lower s')
  end.

(** [needle in s] *)
Fixpoint contains (needle s : string) : bool :=
  prefix needle s ||
  match s with
  | EmptyString => false
  | String _ s' => contains needle s'
  end.

Fixpoint drop (n : nat) (s : string) : string :=
  match n, s with
  | O, _ => s
  | S n', String _ s' => drop n' s'
  | S _, EmptyString => EmptyString
  end.

(** The text before and after the first occurrence of [sep] in [s]. *)
Fixpoint partition (sep s : string) : option (string * string) :=
  if prefix sep s then Some (EmptyString, drop (String.length sep) s)
  else match s with
       | EmptyString => None
       | String c s' =>
           match partition sep s' with
           | Some (b, a) => Some (String c b, a)
           | None => None
           end
       end.

Definition is_space (c : ascii) : bool :=
  let n := nat_of_ascii c in
  (((9 <=? n) && (n <=? 13)) || ((28 <=? n) && (n <=? 32)))%nat.

Fixpoint lstrip (s : string) : string :=
  match s with
  | EmptyString => EmptyString
  | String c s' => if is_space c then lstrip s' else s
  end.

Fixpoint rstrip (s : string) : string :=
  match s with
  | EmptyString => EmptyString
  | String c s' =>
      match rstrip s' with
      | EmptyString => if is_space c then EmptyString else String c EmptyString
      | r => String c r
      end
  end.

(** [s.strip()] *)
Definition strip (s : string) : string := rstrip (lstrip s).

(** [s.split(open)[1].split("```")[0]], given that [open] occurs in [s]. *)
Definition fenced (open s : string) : string :=
  match partition open s with
  | Some (_, after) =>
      match partition "```" after with
      | Some (inside, _) => inside
      | None => after
      end
  | None => s
  end.

(** [_extract_json] (the same body in [HospitalAgent] and in the service). *)
Definition _extract_json (content : string) : string :=
  let content := strip content in
  if contains "```json" content then strip (fenced "```json" content)
  else if contains "```" content then strip (fenced "```" content)
  else content.

(* ===================================================================== *)
(** ** Data model ([multi_agent_service.py], lines 41-82) *)
(* ===================================================================== *)

Record ResourceRequest : Type := {
  req_hospital_id : string;
  req_hospital_name : string;
  req_resource_type : string;
  req_quantity : Z;
  req_urgency : string;
  req_duration_days : Z;
  req_max_price : Q;
  req_additional_details : json
}.

(** A dataclass does not check its field types: [quantity], [price_per_unit]
    and [conditions] hold whatever the decoded judgment holds. *)
Record ResourceOffer : Type := {
  offer_hospital_id : string;
  offer_hospital_name : string;
  offer_resource_type : string;
  offer_quantity : json;
  offer_price_per_unit : json;
  offer_conditions : json
}.

(** The values of [NegotiationSession.status]. The dataclass comment lists
    ["failed"] among them. *)
Inductive status : Type :=
| initiated
| broadcasting
| collecting_responses
| negotiating
| deciding
| completed
| failed.

Record message : Type := {
  msg_from : string;
  msg_type : string;
  msg_content : json
}.

Record NegotiationSession : Type := {
  initiator_hospital : string;
  participant_hospitals : list string;
  request : ResourceRequest;
  offers : list ResourceOffer;
  session_status : status;
  messages : list message;
  final_agreement : option json
}.

(** [hospital_data]: the ["type"] entry, when present, is text; the other
    entries only feed the prompts. *)
Record HospitalData : Type := {
  hd_type : option string;
  hd_other : list (string * json)
}.

Record HospitalAgent : Type := {
  hospital_id : string;
  hospital_name : string;
  hospital_data : HospitalData
}.

(** The three personalities of [_generate_personality]. *)
Inductive personality_kind : Type :=
| academic_collaborative
| business_oriented
| community_focused.

(** [dict.get("type", default)] with the empty text as default *)
Definition get_type (d : HospitalData) : string :=
  match hd_type d with Some t => t | None => EmptyString end.

Definition _generate_personality (a : HospitalAgent) : personality_kind :=
  if contains "teaching" (lower (hospital_name a)) then academic_collaborative
  else if contains "private" (lower (get_type (hospital_data a))) then business_oriented
  else community_focused.

(** [HospitalAgent.__init__] stores [self.personality]. *)
Definition personality (a : HospitalAgent) : personality_kind :=
  _generate_personality a.

(** The progress events, by their ["event"] entry, with their payloads. *)
Inductive event : Type :=
| negotiation_initiated (rq : ResourceRequest)
| broadcasting_request (participants : list string)
| agent_analyzing (agent : string)
| offer_received (agent : string) (offer : ResourceOffer) (reasoning : option json)
| offer_declined (agent : string) (reason : option json)
| negotiation_round_started (offers_count : nat)
| offer_adjusted (agent : string) (adjustment : json)
| making_decision
| negotiation_completed (decision : json).

Inductive event_kind : Type :=
| K_negotiation_initiated
| K_broadcasting_request
| K_agent_analyzing
| K_offer_received
| K_offer_declined
| K_negotiation_round_started
| K_offer_adjusted
| K_making_decision
| K_negotiation_completed.

Definition kind_of (e : event) : event_kind :=
  match e with
  | negotiation_initiated _ => K_negotiation_initiated
  | broadcasting_request _ => K_broadcasting_request
  | agent_analyzing _ => K_agent_analyzing
  | offer_received _ _ _ => K_offer_received
  | offer_declined _ _ => K_offer_declined
  | negotiation_round_started _ => K_negotiation_round_started
  | offer_adjusted _ _ => K_offer_adjusted
  | making_decision => K_making_decision
  | negotiation_completed _ => K_negotiation_completed
  end.

(* ===================================================================== *)
(** ** The language model seen from the code *)
(* ===================================================================== *)

(** One call of [client.chat.completions.create], by the method issuing it
    and the data its prompt is built from. *)
Inductive oracle_call : Type :=
| AnalyzeCall (agent : HospitalAgent) (rq : ResourceRequest)
| NegotiateCall (agent : HospitalAgent) (rq : ResourceRequest)
                (competing_offers : list ResourceOffer)
| DecisionCall (session : NegotiationSession).

(** The call either raises, or returns a response whose
    [choices[0].message.content] is text or [None]. *)
Inductive reply : Type :=
| Raises (e : exn)
| Content (c : option string).

(** [self._extract_json(content)]: [None] has no [strip]. *)
Definition extract (c : option string) : res string :=
  match c with
  | Some s => Ok (_extract_json s)
  | None => Raise (AttributeError "'NoneType' object has no attribute 'strip'")
  end.

Definition res_bind {A B : Type} (r : res A) (k : A -> res B) : res B :=
  match r with
  | Ok a => k a
  | Raise e => Raise e
  end.

(* ===================================================================== *)
(** ** A generator that mutates the session *)
(* ===================================================================== *)

(** What a run of the generator leaves behind, in order: assignments to
    [session.status] and yielded events. *)
Inductive step : Type :=
| Assigned (s : status)
| Yielded (e : event).

(** A piece of the generator body: from the session as it is, a result or an
    exception, the session as mutated so far, and the steps performed. A
    raised exception keeps the mutations and the steps made before it. *)
Definition Gen (A : Type) : Type :=
  NegotiationSession -> res A * NegotiationSession * list step.

Definition ret {A : Type} (a : A) : Gen A := fun s => (Ok a, s, []).

Definition bind {A B : Type} (m : Gen A) (k : A -> Gen B) : Gen B :=
  fun s =>
    match m s with
    | (Ok a, s1, t1) =>
        match k a s1 with
        | (r, s2, t2) => (r, s2, t1 ++ t2)
        end
    | (Raise e, s1, t1) => (Raise e, s1, t1)
    end.

Declare Scope gen_scope.
Delimit Scope gen_scope with gen.
Notation "x <- m ;; k" := (bind m (fun x => k))
  (at level 61, m at next level, right associativity) : gen_scope.
Notation "m ;; k" := (bind m (fun _ => k))
  (at level 61, right associativity) : gen_scope.

Definition lift {A : Type} (r : res A) : Gen A := fun s => (r, s, []).

Definition yield_ (e : event) : Gen unit := fun s => (Ok tt, s, [Yielded e]).

Definition get_session : Gen NegotiationSession := fun s => (Ok s, s, []).

Definition with_status (st : status) (s : NegotiationSession) : NegotiationSession :=
  {| initiator_hospital := initiator_hospital s;
     participant_hospitals := participant_hospitals s;
     request := request s;
     offers := offers s;
     session_status := st;
     messages := messages s;
     final_agreement := final_agreement s |}.

Definition with_offer (o : ResourceOffer) (s : NegotiationSession) : NegotiationSession :=
  {| initiator_hospital := initiator_hospital s;
     participant_hospitals := participant_hospitals s;
     request := request s;
     offers := offers s ++ [o];
     session_status := session_status s;
     messages := messages s;
     final_agreement := final_agreement s |}.

Definition with_message (m : message) (s : NegotiationSession) : NegotiationSession :=
  {| initiator_hospital := initiator_hospital s;
     participant_hospitals := participant_hospitals s;
     request := request s;
     offers := offers s;
     session_status := session_status s;
     messages := messages s ++ [m];
     final_agreement := final_agreement s |}.

Definition with_final_agreement (d : json) (s : NegotiationSession) : NegotiationSession :=
  {| initiator_hospital := initiator_hospital s;
     participant_hospitals := participant_hospitals s;
     request := request s;
     offers := offers s;
     session_status := session_status s;
     messages := messages s;
     final_agreement := Some d |}.

(** [session.status = st] *)
Definition set_status (st : status) : Gen unit :=
  fun s => (Ok tt, with_status st s, [Assigned st]).

(** [session.offers.append(o)] *)
Definition append_offer (o : ResourceOffer) : Gen unit :=
  fun s => (Ok tt, with_offer o s, []).

(** [session.messages.append(m)] *)
Definition append_message (m : message) : Gen unit :=
  fun s => (Ok tt, with_message m s, []).

(** [session.final_agreement = d] *)
Definition set_final_agreement (d : json) : Gen unit :=
  fun s => (Ok tt, with_final_agreement d s, []).

(** [for x in xs: body(x)] *)
Fixpoint for_each {A : Type} (xs : list A) (body : A -> Gen unit) : Gen unit :=
  match xs with
  | [] => ret tt
  | x :: xs' => bind (body x) (fun _ => for_each xs' body)
  end.

(** The outcome of driving the generator to its end. [final_session] is
    [None] when the generator raised before it created the session. *)
Record run : Type := {
  outcome : res unit;
  final_session : option NegotiationSession;
  steps : list step
}.

Fixpoint events_of (t : list step) : list event :=
  match t with
  | [] => []
  | Yielded e :: t' => e :: events_of t'
  | Assigned _ :: t' => events_of t'
  end.

Fixpoint statuses_of (t : list step) : list status :=
  match t with
  | [] => []
  | Assigned s :: t' => s :: statuses_of t'
  | Yielded _ :: t' => statuses_of t'
  end.

Definition events (r : run) : list event := events_of (steps r).
Definition kinds (r : run) : list event_kind := map kind_of (events r).

(** The successive values of [session.status] during a run, from the value
    the session is created with. *)
Definition status_history (r : run) : list status :=
  match final_session r with
  | Some _ => initiated :: statuses_of (steps r)
  | None => []
  end.

(* ===================================================================== *)
(** ** [HospitalAgent] and [MultiAgentCoordinationService] *)
(* ===================================================================== *)

Record MultiAgentCoordinationService : Type := {
  agents : list (string * HospitalAgent)
}.

Definition denial (reasoning : string) : json :=
  JDict [("can_help", JBool false);
         ("reasoning", JStr reasoning);
         ("confidence", JInt 0)].

Definition no_adjustment : json := JDict [("adjust_offer", JBool false)].

Definition no_offers_decision : json :=
  JDict [("success", JBool false);
         ("reason", JStr "No offers received");
         ("recommendations",
          JList [JStr "Try increasing budget"; JStr "Reduce quantity";
                 JStr "Extend timeline"])].

Definition decision_error : json :=
  JDict [("success", JBool false);
         ("reason", JStr "System error during decision making")].

Section Service.

(** [json.loads] on text. *)
Variable json_loads : string -> res json.
(** [client.chat.completions.create]. *)
Variable client : oracle_call -> reply.

(** [HospitalAgent.analyze_request], lines 158-199. The handler of
    [json.JSONDecodeError] reads the local [content], which is bound only
    once the call has returned. *)
Definition analyze_request (a : HospitalAgent) (rq : ResourceRequest) : res json :=
  let on_error (content_bound : bool) (e : exn) : res json :=
    match e with
    | JSONDecodeError _ =>
        if content_bound then Ok (denial "Invalid response format")
        else Raise (UnboundLocalError
               "cannot access local variable 'content' where it is not associated with a value")
    | _ => Ok (denial ("System error: " ++ exn_str e))
    end in
  match client (AnalyzeCall a rq) with
  | Raises e => on_error false e
  | Content c =>
      try_except (res_bind (extract c) json_loads) (on_error true)
  end.

(** [HospitalAgent.negotiate_offer], lines 227-253. *)
Definition negotiate_offer (a : HospitalAgent) (rq : ResourceRequest)
           (competing_offers : list ResourceOffer) : res json :=
  let body :=
    match client (NegotiateCall a rq competing_offers) with
    | Raises e => Raise e
    | Content c => res_bind (extract c) json_loads
    end in
  try_except body (fun _ => Ok no_adjustment).

(** The list comprehension of the decision prompt evaluates
    [o.quantity * o.price_per_unit] for every offer, outside any [try]. *)
Fixpoint total_costs (os : list ResourceOffer) : res unit :=
  match os with
  | [] => Ok tt
  | o :: os' =>
      res_bind (py_mul_check (offer_quantity o) (offer_price_per_unit o))
               (fun _ => total_costs os')
  end.

(** [MultiAgentCoordinationService._make_decision], lines 507-578. *)
Definition _make_decision (session : NegotiationSession) : res json :=
  match offers session with
  | [] => Ok no_offers_decision
  | _ :: _ =>
      res_bind (total_costs (offers session)) (fun _ =>
        let body :=
          match client (DecisionCall session) with
          | Raises e => Raise e
          | Content c => res_bind (extract c) json_loads
          end in
        try_except body (fun _ => Ok decision_error))
  end.

(** [self.agents[hid]] *)
Definition agent_of (svc : MultiAgentCoordinationService) (hid : string)
  : res HospitalAgent :=
  match assoc hid (agents svc) with
  | Some a => Ok a
  | None => Raise (KeyError hid)
  end.

(** [analysis.get("conditions", [])] *)
Definition get_conditions (d : option json) : json :=
  match d with Some c => c | None => JList [] end.

Local Open Scope gen_scope.

(** Lines 419-464: one iteration of the collection loop. *)
Definition collect_one (svc : MultiAgentCoordinationService)
           (rq : ResourceRequest) (resource_type : string)
           (hid : string) : Gen unit :=
  agent <- lift (agent_of svc hid) ;;
  yield_ (agent_analyzing (hospital_name agent)) ;;
  analysis <- lift (analyze_request agent rq) ;;
  append_message {| msg_from := hid; msg_type := "analysis";
                    msg_content := analysis |} ;;
  can_help <- lift (py_get analysis "can_help") ;;
  if opt_truthy can_help then
    quantity <- lift (py_item analysis "quantity_available") ;;
    price <- lift (py_item analysis "proposed_price_per_unit") ;;
    conditions <- lift (py_get analysis "conditions") ;;
    let offer := {| offer_hospital_id := hid;
                    offer_hospital_name := hospital_name agent;
                    offer_resource_type := resource_type;
                    offer_quantity := quantity;
                    offer_price_per_unit := price;
                    offer_conditions := get_conditions conditions |} in
    append_offer offer ;;
    reasoning <- lift (py_get analysis "reasoning") ;;
    yield_ (offer_received (hospital_name agent) offer reasoning)
  else
    reason <- lift (py_get analysis "reasoning") ;;
    yield_ (offer_declined (hospital_name agent) reason).

(** Lines 476-486: one iteration of the negotiation loop. *)
Definition negotiate_one (svc : MultiAgentCoordinationService)
           (rq : ResourceRequest) (all_offers : list ResourceOffer)
           (offer : ResourceOffer) : Gen unit :=
  agent <- lift (agent_of svc (offer_hospital_id offer)) ;;
  negotiation_result <- lift (negotiate_offer agent rq all_offers) ;;
  adjust <- lift (py_get negotiation_result "adjust_offer") ;;
  if opt_truthy adjust then
    yield_ (offer_adjusted (hospital_name agent) negotiation_result)
  else ret tt.

(** Lines 466-486. *)
Definition negotiation_round (svc : MultiAgentCoordinationService)
           (rq : ResourceRequest) : Gen unit :=
  session <- get_session ;;
  if (1 <? List.length (offers session))%nat then
    set_status negotiating ;;
    yield_ (negotiation_round_started (List.length (offers session))) ;;
    for_each (offers session) (negotiate_one svc rq (offers session))
  else ret tt.

(** Lines 488-505. *)
Definition decision_phase : Gen unit :=
  set_status deciding ;;
  yield_ making_decision ;;
  session <- get_session ;;
  decision <- lift (_make_decision session) ;;
  set_final_agreement decision ;;
  set_status completed ;;
  yield_ (negotiation_completed decision).

(** [[self.agents[hid].hospital_name for hid in participant_ids]] *)
Fixpoint participant_names (svc : MultiAgentCoordinationService)
         (ids : list string) : res (list string) :=
  match ids with
  | [] => Ok []
  | hid :: ids' =>
      res_bind (agent_of svc hid) (fun a =>
      res_bind (participant_names svc ids') (fun ns =>
      Ok (hospital_name a :: ns)))
  end.

(** Lines 398-505: the generator body once the session exists. *)
Definition negotiation_body (svc : MultiAgentCoordinationService)
           (rq : ResourceRequest) (participant_ids : list string) : Gen unit :=
  yield_ (negotiation_initiated rq) ;;
  set_status broadcasting ;;
  names <- lift (participant_names svc participant_ids) ;;
  yield_ (broadcasting_request names) ;;
  set_status collecting_responses ;;
  for_each participant_ids (collect_one svc rq (req_resource_type rq)) ;;
  negotiation_round svc rq ;;
  decision_phase.

(** [[hid for hid in self.agents.keys() if hid != initiator_hospital_id]] *)
Definition participants_of (svc : MultiAgentCoordinationService)
           (initiator_hospital_id : string) : list string :=
  filter (fun hid => negb (String.eqb hid initiator_hospital_id))
         (map fst (agents svc)).

(** [additional_details or {}] *)
Definition details_or_empty (d : option json) : json :=
  match d with
  | Some v => if truthy v then v else JDict []
  | None => JDict []
  end.

(** [MultiAgentCoordinationService.initiate_negotiation], lines 349-505,
    driven to its end. *)
Definition initiate_negotiation (svc : MultiAgentCoordinationService)
           (initiator_hospital_id resource_type : string) (quantity : Z)
           (urgency : string) (duration_days : Z) (max_budget : Q)
           (additional_details : option json) : run :=
  match agent_of svc initiator_hospital_id with
  | Raise e => {| outcome := Raise e; final_session := None; steps := [] |}
  | Ok initiator =>
      let rq := {| req_hospital_id := initiator_hospital_id;
                   req_hospital_name := hospital_name initiator;
                   req_resource_type := resource_type;
                   req_quantity := quantity;
                   req_urgency := urgency;
                   req_duration_days := duration_days;
                   req_max_price := max_budget;
                   req_additional_details := details_or_empty additional_details |} in
      let participant_ids := participants_of svc initiator_hospital_id in
      let session := {| initiator_hospital := initiator_hospital_id;
                        participant_hospitals := participant_ids;
                        request := rq;
                        offers := [];
                        session_status := initiated;
                        messages := [];
                        final_agreement := None |} in
      match negotiation_body svc rq participant_ids session with
      | (r, s, t) => {| outcome := r; final_session := Some s; steps := t |}
      end
  end.

End Service.

(** The items of the server-sent event stream of [start_negotiation]. *)
Inductive sse : Type :=
| data (e : event)
| stream_complete
| error (message : string).

(** [start_negotiation.event_generator] ([api/routes/multi_agent.py], lines
    46-65), driven to its end. *)
Definition event_generator (r : run) : list sse :=
  map data (events r) ++
  match outcome r with
  | Ok _ => [stream_complete]
  | Raise e => [error (exn_str e)]
  end.

(** The two event kinds that end a negotiation in the stream. *)
Definition is_terminal (x : sse) : bool :=
  match x with
  | data (negotiation_completed _) => true
  | error _ => true
  | _ => false
  end.

(** [_initialize_demo_hospitals], lines 271-326 (the entries used by the
    code: identifier, name and type). *)
Definition demo_agent (id name type : string) : string * HospitalAgent :=
  (id, {| hospital_id := id; hospital_name := name;
          hospital_data := {| hd_type := Some type; hd_other := [] |} |}).

Definition demo_hospitals : MultiAgentCoordinationService :=
  {| agents :=
       [ demo_agent "HOSP_A" "Apollo City Hospital" "Private Multi-specialty";
         demo_agent "HOSP_B" "Max Super Specialty Hospital" "Private Tertiary Care";
         demo_agent "HOSP_C" "Fortis Medical Centre" "Private Teaching Hospital" ] |}.

(* ===================================================================== *)
(** ** [sorted(xs, key=...)] *)
(* ===================================================================== *)

Section Sorted.

Variables (A K : Type).
Variable key : A -> K.
(** [a < b] on keys. *)
Variable ltb : K -> K -> bool.

(** [x] goes behind the elements whose key is smaller and in front of the
    first one whose key is not. *)
Fixpoint insert_by (x : A) (l : list A) : list A :=
  match l with
  | [] => [x]
  | y :: l' => if ltb (key y) (key x) then y :: insert_by x l'
               else x :: y :: l'
  end.

(** Python's [sorted] is a stable ascending sort; on keys that are totally
    preordered by [<] its result is the one computed here. *)
Fixpoint sorted (l : list A) : list A :=
  match l with
  | [] => []
  | x :: l' => insert_by x (sorted l')
  end.

(** [a] and [b] compare equal. *)
Definition tied (a b : K) : bool := negb (ltb a b) && negb (ltb b a).

(** [y] does not compare below [x]. *)
Definition ascending (x y : A) : Prop := ltb (key y) (key x) = false.

End Sorted.

(* ===================================================================== *)
(** ** [LangGraphNegotiationService] without a language model *)
(* ===================================================================== *)

Module LangGraph.

(** An offer read from the cache: a [dict] whose ["total_price"], when
    present, is a number. *)
Record offer : Type := {
  hospital_id : option string;
  total_price : option Q;
  other_entries : list (string * json)
}.

(** The keys of [key=lambda x: x.get("total_price", float('inf'))]. *)
Inductive price_key : Type :=
| Finite (q : Q)
| Infinity.

Definition sort_key (x : offer) : price_key :=
  match total_price x with
  | Some q => Finite q
  | None => Infinity
  end.

Definition Qlt_bool (a b : Q) : bool := negb (Qle_bool b a).

Definition key_ltb (a b : price_key) : bool :=
  match a, b with
  | Finite x, Finite y => Qlt_bool x y
  | Finite _, Infinity => true
  | Infinity, _ => false
  end.

(** [sorted(state["offers"], key=lambda x: x.get("total_price", inf))],
    lines 312-315 and 372. *)
Definition rank_by_price (offers : list offer) : list offer :=
  sorted sort_key key_ltb offers.

Record evaluation : Type := {
  ranked_offers : list offer;
  top_choice : option offer;
  recommendation : option string
}.

(** [need_analysis]: the entries read or written by the modelled paths. *)
Record need_analysis_t : Type := {
  priority : string;
  strategy : string;
  max_acceptable_price : option Q;
  max_acceptable_price_per_unit : option Q
}.

Record round_data : Type := {
  round : nat;
  our_offer : Q;
  their_response : Q;
  accepted : bool
}.

Record final_offer : Type := {
  top_offer : offer;
  negotiated_price : Q;
  original_price : option Q;
  savings : Q;
  negotiation_rounds_count : nat
}.

(** The entries of [NegotiationState] used by the three nodes. *)
Record NegotiationState : Type := {
  quantity : Z;
  need_analysis : option need_analysis_t;
  offers : list offer;
  offer_evaluations : option evaluation;
  negotiation_rounds : list round_data;
  best_offer : option final_offer;
  negotiation_complete : bool
}.

(** [_analyze_need] with [self.llm] unset, lines 157-166. *)
Definition _analyze_need (state : NegotiationState) : NegotiationState :=
  {| quantity := quantity state;
     need_analysis :=
       Some {| priority := "high"; strategy := "competitive";
               max_acceptable_price := Some (10000 # 1)%Q;
               max_acceptable_price_per_unit := None |};
     offers := offers state;
     offer_evaluations := offer_evaluations state;
     negotiation_rounds := negotiation_rounds state;
     best_offer := best_offer state;
     negotiation_complete := negotiation_complete state |}.

Definition with_evaluation (e : evaluation) (state : NegotiationState)
  : NegotiationState :=
  {| quantity := quantity state;
     need_analysis := need_analysis state;
     offers := offers state;
     offer_evaluations := Some e;
     negotiation_rounds := negotiation_rounds state;
     best_offer := best_offer state;
     negotiation_complete := negotiation_complete state |}.

(** [_evaluate_offers] with [self.llm] unset, lines 301-322. *)
Definition _evaluate_offers (state : NegotiationState) : NegotiationState :=
  match offers state with
  | [] =>
      with_evaluation
        {| ranked_offers := []; top_choice := None;
           recommendation :=
             Some "No offers received. Consider expanding search or adjusting requirements." |}
        state
  | _ :: _ =>
      let sorted_offers := rank_by_price (offers state) in
      with_evaluation
        {| ranked_offers := sorted_offers;
           top_choice := hd_error sorted_offers;
           recommendation := None |}
        state
  end.

(** The handler of lines 369-376, taken when the model's evaluation fails. *)
Definition evaluation_failed (state : NegotiationState) : NegotiationState :=
  with_evaluation
    {| ranked_offers := rank_by_price (offers state);
       top_choice := None;
       recommendation := Some "Ranked by price (LLM evaluation failed)" |}
    state.

(** [max(a, b)] *)
Definition py_max (a b : Q) : Q := if Qlt_bool a b then b else a.

(** One pass of the loop body with [self.llm] unset, lines 404-414:
    [0.05] is the rational 5/100. *)
Definition negotiate_round (round_num : nat) (current_price target_price : Q)
  : round_data :=
  let reduction := (current_price * (5 # 100))%Q in
  let new_price := py_max (current_price - reduction)%Q target_price in
  {| round := round_num;
     our_offer := new_price;
     their_response := new_price;
     accepted := (round_num =? 3)%nat || Qle_bool new_price target_price |}.

(** [for round_num in ...: ...; if round_data["accepted"]: break],
    lines 401-477; returns [rounds] and the last [current_price]. *)
Fixpoint negotiate_loop (round_nums : list nat) (current_price target_price : Q)
  : list round_data * Q :=
  match round_nums with
  | [] => ([], current_price)
  | n :: ns =>
      let round_data := negotiate_round n current_price target_price in
      let current_price := their_response round_data in
      if accepted round_data then ([round_data], current_price)
      else
        match negotiate_loop ns current_price target_price with
        | (rounds, final_price) => (round_data :: rounds, final_price)
        end
  end.

Definition opt_or (o : option Q) (d : Q) : Q :=
  match o with Some q => q | None => d end.

(** [state["need_analysis"].get("max_acceptable_price_per_unit", 0)
     * state["quantity"]], line 399. *)
Definition target_price_of (na : need_analysis_t) (quantity : Z) : Q :=
  (opt_or (max_acceptable_price_per_unit na) 0 * inject_Z quantity)%Q.

(** [_negotiate] with [self.llm] unset, lines 386-495. [need_analysis] is
    set by the first node of the workflow; [None] has no [get]. *)
Definition _negotiate (state : NegotiationState) : res NegotiationState :=
  match offer_evaluations state with
  | None => Raise (AttributeError "'NoneType' object has no attribute 'get'")
  | Some evaluations =>
      match ranked_offers evaluations with
      | [] =>
          Ok {| quantity := quantity state;
                need_analysis := need_analysis state;
                offers := offers state;
                offer_evaluations := offer_evaluations state;
                negotiation_rounds := negotiation_rounds state;
                best_offer := None;
                negotiation_complete := true |}
      | top :: _ =>
          match need_analysis state with
          | None => Raise (AttributeError "'NoneType' object has no attribute 'get'")
          | Some na =>
              let current_price := opt_or (total_price top) 0 in
              let target_price := target_price_of na (quantity state) in
              match negotiate_loop [1; 2; 3]%nat current_price target_price with
              | (rounds, current_price) =>
                  Ok {| quantity := quantity state;
                        need_analysis := need_analysis state;
                        offers := offers state;
                        offer_evaluations := offer_evaluations state;
                        negotiation_rounds := rounds;
                        best_offer :=
                          Some {| top_offer := top;
                                  negotiated_price := current_price;
                                  original_price := total_price top;
                                  savings := (opt_or (total_price top) 0 - current_price)%Q;
                                  negotiation_rounds_count := List.length rounds |};
                        negotiation_complete := true |}
              end
          end
      end
  end.

End LangGraph.

(* ===================================================================== *)
(** ** Vocabulary of the statements *)
(* ===================================================================== *)

(** [needle] occurs in [s] up to the case of ASCII letters. *)
Definition occurs_ignoring_case (needle s : string) : Prop :=
  exists pre mid post, s = (pre ++ mid ++ post)%string /\ lower mid = needle.

(** Ascending order of total prices, a missing price counting as infinite. *)
Definition price_le (a b : LangGraph.offer) : Prop :=
  match LangGraph.total_price a, LangGraph.total_price b with
  | Some x, Some y => (x <= y)%Q
  | _, None => True
  | None, Some _ => False
  end.

(** [x] has the same total price as the key [k]. *)
Definition same_price (k : LangGraph.price_key) (x : LangGraph.offer) : bool :=
  tied LangGraph.key_ltb (LangGraph.sort_key x) k.

Definition priced_offer (id : string) (total : Z) : LangGraph.offer :=
  {| LangGraph.hospital_id := Some id;
     LangGraph.total_price := Some (inject_Z total);
     LangGraph.other_entries := [] |}.

Definition state_with_offers (quantity : Z) (offers : list LangGraph.offer)
  : LangGraph.NegotiationState :=
  {| LangGraph.quantity := quantity;
     LangGraph.need_analysis := None;
     LangGraph.offers := offers;
     LangGraph.offer_evaluations := None;
     LangGraph.negotiation_rounds := [];
     LangGraph.best_offer := None;
     LangGraph.negotiation_complete := false |}.

(** What a step shows of itself to an observer of the order of steps: the
    status assigned, or the kind of the event and the agent it names. *)
Inductive shape : Type :=
| SAssign (s : status)
| SYield (k : event_kind) (agent : option string).

Definition agent_in (e : event) : option string :=
  match e with
  | agent_analyzing a => Some a
  | offer_received a _ _ => Some a
  | offer_declined a _ => Some a
  | offer_adjusted a _ => Some a
  | _ => None
  end.

Definition shape_of (st : step) : shape :=
  match st with
  | Assigned s => SAssign s
  | Yielded e => SYield (kind_of e) (agent_in e)
  end.

Fixpoint yields_of (w : list shape) : list event_kind :=
  match w with
  | [] => []
  | SYield k _ :: w' => k :: yields_of w'
  | SAssign _ :: w' => yields_of w'
  end.

Fixpoint assigns_of (w : list shape) : list status :=
  match w with
  | [] => []
  | SAssign s :: w' => s :: assigns_of w'
  | SYield _ _ :: w' => assigns_of w'
  end.

(** The agents named by the [agent_analyzing] events, in order. *)
Fixpoint analyzed (es : list event) : list string :=
  match es with
  | [] => []
  | agent_analyzing a :: es' => a :: analyzed es'
  | _ :: es' => analyzed es'
  end.

(** [done] is an initial part of [full], and all of it when [r] is a normal
    return. *)
Definition conforms {A B : Type} (r : res B) (done full : list A) : Prop :=
  (exists rest, full = done ++ rest) /\ (is_ok r = true -> done = full).

(** A generator piece follows the language [L] when, from any session, the
    steps it performs are an initial part of a word of [L], and a word of
    [L] when it returns normally. *)
Definition follows {A : Type} (m : Gen A) (L : list shape -> Prop) : Prop :=
  forall s,
    match m s with
    | (r, _, t) => exists full, L full /\ conforms r (map shape_of t) full
    end.

Definition seq_lang (L1 L2 : list shape -> Prop) : list shape -> Prop :=
  fun w => exists w1 w2, w = w1 ++ w2 /\ L1 w1 /\ L2 w2.

Definition answer_kind (b : bool) : event_kind :=
  if b then K_offer_received else K_offer_declined.

(** The steps of the collection loop over agents named [names], [b] telling
    which of them made an offer. *)
Fixpoint collect_block (names : list string) (bs : list bool) : list shape :=
  match names, bs with
  | n :: names', b :: bs' =>
      SYield K_agent_analyzing (Some n) :: SYield (answer_kind b) (Some n)
        :: collect_block names' bs'
  | _, _ => []
  end.

(** The steps of the negotiation round: none when it is skipped, otherwise
    the status, the opening event and the adjustments. *)
Definition negotiation_block (adjusting : option (list string)) : list shape :=
  match adjusting with
  | None => []
  | Some names =>
      SAssign negotiating :: SYield K_negotiation_round_started None
        :: map (fun n => SYield K_offer_adjusted (Some n)) names
  end.

Definition opening_block : list shape :=
  [SYield K_negotiation_initiated None; SAssign broadcasting;
   SYield K_broadcasting_request None; SAssign collecting_responses].

Definition decision_block : list shape :=
  [SAssign deciding; SYield K_making_decision None;
   SAssign completed; SYield K_negotiation_completed None].

(** All the steps of a negotiation that runs to its end. *)
Definition full_run (names : list string) (bs : list bool)
           (adjusting : option (list string)) : list shape :=
  opening_block ++ collect_block names bs ++ negotiation_block adjusting
  ++ decision_block.

(** [hospital_name] of the agent registered under [hid]. *)
Definition name_of (svc : MultiAgentCoordinationService) (hid : string) : string :=
  match assoc hid (agents svc) with
  | Some a => hospital_name a
  | None => EmptyString
  end.

(** Position of a status in the order of the phases. *)
Definition rank (s : status) : nat :=
  match s with
  | initiated => 0
  | broadcasting => 1
  | collecting_responses => 2
  | negotiating => 3
  | deciding => 4
  | completed => 5
  | failed => 6
  end.

(** The event kinds of the negotiation round: none when the round is
    skipped, otherwise the opening event and [k] adjustments. *)
Definition round_kinds (adjusted : option nat) : list event_kind :=
  match adjusted with
  | None => []
  | Some k => K_negotiation_round_started :: repeat K_offer_adjusted k
  end.

(** The event kinds of a negotiation with three participants that runs to
    its end. *)
Definition three_participant_kinds (b1 b2 b3 : bool) (adjusted : option nat)
  : list event_kind :=
  [K_negotiation_initiated; K_broadcasting_request;
   K_agent_analyzing; answer_kind b1;
   K_agent_analyzing; answer_kind b2;
   K_agent_analyzing; answer_kind b3]
  ++ round_kinds adjusted
  ++ [K_making_decision; K_negotiation_completed].

Fixpoint analyzed_shapes (w : list shape) : list string :=
  match w with
  | [] => []
  | SYield K_agent_analyzing (Some a) :: w' => a :: analyzed_shapes w'
  | _ :: w' => analyzed_shapes w'
  end.

(** The statuses that follow the first [negotiating]. *)
Fixpoint after_negotiating (h : list status) : list status :=
  match h with
  | [] => []
  | negotiating :: h' => h'
  | _ :: h' => after_negotiating h'
  end.

Definition phases_with_round : list status :=
  [initiated; broadcasting; collecting_responses; negotiating; deciding; completed].

Definition phases_without_round : list status :=
  [initiated; broadcasting; collecting_responses; deciding; completed].

(** The request of the examples: 8 ventilators for 3 days, budget 500000,
    asked by [HOSP_A]. *)
Definition sample_run (json_loads : string -> res json)
           (client : oracle_call -> reply)
           (svc : MultiAgentCoordinationService) : run :=
  initiate_negotiation json_loads client svc "HOSP_A" "ventilators" 8 "high" 3
                       (500000 # 1)%Q None.

Definition is_completion (e : event) : bool :=
  match e with negotiation_completed _ => true | _ => false end.

(** No step of the piece yields [negotiation_completed]. *)
Definition clean {A : Type} (m : Gen A) : Prop :=
  forall s,
    match m s with
    | (_, _, t) => Forall (fun e => is_completion e = false) (events_of t)
    end.

(** The piece yields [negotiation_completed] once, as its last event, when
    it returns normally, and not at all when it raises. *)
Definition ends (m : Gen unit) : Prop :=
  forall s,
    match m s with
    | (Ok _, _, t) =>
        exists es d, events_of t = es ++ [negotiation_completed d] /\
                     Forall (fun e => is_completion e = false) es
    | (Raise _, _, t) => Forall (fun e => is_completion e = false) (events_of t)
    end.

(** Every participant answers the request with a judgment whose [can_help]
    is missing or false. *)
Definition all_decline (json_loads : string -> res json)
           (client : oracle_call -> reply)
           (svc : MultiAgentCoordinationService) (ids : list string) : Prop :=
  forall hid a rq,
    In hid ids -> assoc hid (agents svc) = Some a ->
    exists v c, analyze_request json_loads client a rq = Ok v /\
                py_get v "can_help" = Ok c /\ opt_truthy c = false.

(** *** Sample answers of the language model *)

Definition dq : string := String (ascii_of_nat 34) EmptyString.

(** A JSON string literal. *)
Definition lit (s : string) : string := dq ++ s ++ dq.

(** [{"can_help": true}] *)
Definition text_can_help_only : string :=
  "{" ++ lit "can_help" ++ ": true}".

(** [{"can_help": true, "quantity_available": 5,
      "proposed_price_per_unit": 4500}] *)
Definition text_offer : string :=
  "{" ++ lit "can_help" ++ ": true, " ++ lit "quantity_available" ++ ": 5, "
  ++ lit "proposed_price_per_unit" ++ ": 4500}".

(** [{"adjust_offer": true, "new_price_per_unit": 4000,
      "new_conditions": []}] *)
Definition text_adjust : string :=
  "{" ++ lit "adjust_offer" ++ ": true, " ++ lit "new_price_per_unit"
  ++ ": 4000, " ++ lit "new_conditions" ++ ": []}".

(** [json.loads] on the three sample texts; any other text is rejected. *)
Definition sample_loads (text : string) : res json :=
  match assoc text
          [ (text_can_help_only, JDict [("can_help", JBool true)]);
            (text_offer, JDict [("can_help", JBool true);
                                ("quantity_available", JInt 5);
                                ("proposed_price_per_unit", JInt 4500)]);
            (text_adjust, JDict [("adjust_offer", JBool true);
                                 ("new_price_per_unit", JInt 4000);
                                 ("new_conditions", JList [])]) ] with
  | Some v => Ok v
  | None => Raise (JSONDecodeError "Expecting value: line 1 column 1 (char 0)")
  end.

(** The model does not answer in time. *)
Definition client_timeout (c : oracle_call) : reply :=
  Raises (OtherError "Request timed out.").

(** The body of the HTTP response is not JSON: the client library raises
    [json.JSONDecodeError] out of [create]. *)
Definition client_bad_body (c : oracle_call) : reply :=
  Raises (JSONDecodeError "Expecting value: line 1 column 1 (char 0)").

(** Every agent answers [{"can_help": true}]. *)
Definition client_can_help_only (c : oracle_call) : reply :=
  match c with
  | AnalyzeCall _ _ => Content (Some text_can_help_only)
  | _ => Raises (OtherError "Request timed out.")
  end.

(** Every agent offers 5 units at 4500 and then asks to go down to 4000. *)
Definition client_adjusting (c : oracle_call) : reply :=
  match c with
  | AnalyzeCall _ _ => Content (Some text_offer)
  | NegotiateCall _ _ _ => Content (Some text_adjust)
  | DecisionCall _ => Raises (OtherError "Request timed out.")
  end.

(** The demo hospitals and a fourth one. *)
Definition four_hospitals : MultiAgentCoordinationService :=
  {| agents := agents demo_hospitals
               ++ [demo_agent "HOSP_D" "City Teaching Hospital" "Government"] |}.

(** *** Effects of a piece of the generator *)

(** The offers carried by the [offer_received] events, in order. *)
Fixpoint received_offers (es : list event) : list ResourceOffer :=
  match es with
  | [] => []
  | offer_received _ o _ :: es' => o :: received_offers es'
  | _ :: es' => received_offers es'
  end.

(** The counts announced by the [negotiation_round_started] events. *)
Fixpoint announced_counts (es : list event) : list nat :=
  match es with
  | [] => []
  | negotiation_round_started n :: es' => n :: announced_counts es'
  | _ :: es' => announced_counts es'
  end.

(** From any session, whether it returns or raises, the piece relates the
    session before, the session after and the steps performed by [R]. *)
Definition tracks {A : Type}
           (R : NegotiationSession -> NegotiationSession -> list step -> Prop)
           (m : Gen A) : Prop :=
  forall s, match m s with (_, s', t) => R s s' t end.

(** What the collection loop does to the session: it appends the offers it
    announces, each satisfying [Q], and touches neither the status, the
    request nor the final agreement. *)
Definition collected (Q : ResourceOffer -> Prop)
           (s s' : NegotiationSession) (t : list step) : Prop :=
  offers s' = offers s ++ received_offers (events_of t) /\
  Forall Q (received_offers (events_of t)) /\
  statuses_of t = [] /\
  announced_counts (events_of t) = [] /\
  session_status s' = session_status s /\
  final_agreement s' = final_agreement s /\
  request s' = request s.

(** A piece that leaves the session alone and neither assigns a status nor
    announces an offer or a round. *)
Definition quiet (s s' : NegotiationSession) (t : list step) : Prop :=
  s' = s /\ statuses_of t = [] /\ received_offers (events_of t) = [] /\
  announced_counts (events_of t) = [].

(** A judgment the orchestrator can use: a [dict] which, when its
    [can_help] is true, has a numeric [quantity_available] and a numeric
    [proposed_price_per_unit]. *)
Definition usable_judgment (v : json) : Prop :=
  exists d, v = JDict d /\
    (opt_truthy (assoc "can_help" d) = true ->
     exists q p, assoc "quantity_available" d = Some q /\
                 assoc "proposed_price_per_unit" d = Some p /\
                 is_number q = true /\ is_number p = true).

Definition numeric_offer (o : ResourceOffer) : Prop :=
  is_number (offer_quantity o) = true /\ is_number (offer_price_per_unit o) = true.

(** The offer [o] was built from the judgment of the participant [hid]:
    that judgment had a true [can_help], and [o] carries its
    [quantity_available] and [proposed_price_per_unit], the name of the
    agent and the resource type [rt]. *)
Definition offer_from (json_loads : string -> res json)
           (client : oracle_call -> reply)
           (svc : MultiAgentCoordinationService) (rq : ResourceRequest)
           (rt hid : string) (o : ResourceOffer) : Prop :=
  offer_resource_type o = rt /\
  offer_hospital_id o = hid /\
  exists a d,
    assoc hid (agents svc) = Some a /\
    offer_hospital_name o = hospital_name a /\
    analyze_request json_loads client a rq = Ok (JDict d) /\
    opt_truthy (assoc "can_help" d) = true /\
    assoc "quantity_available" d = Some (offer_quantity o) /\
    assoc "proposed_price_per_unit" d = Some (offer_price_per_unit o).

(** Every registered agent answers an analysis with a usable judgment. *)
Definition judgments_usable (json_loads : string -> res json)
           (client : oracle_call -> reply)
           (svc : MultiAgentCoordinationService) : Prop :=
  forall hid a rq,
    assoc hid (agents svc) = Some a ->
    exists v, analyze_request json_loads client a rq = Ok v /\ usable_judgment v.

(** Every registered agent answers a negotiation with a [dict]. *)
Definition adjustments_are_dicts (json_loads : string -> res json)
           (client : oracle_call -> reply)
           (svc : MultiAgentCoordinationService) : Prop :=
  forall hid a rq competing_offers,
    assoc hid (agents svc) = Some a ->
    exists d, negotiate_offer json_loads client a rq competing_offers = Ok (JDict d).

(* ===================================================================== *)
(** ** [LangGraphNegotiationService]: negotiation with a model, contract *)
(* ===================================================================== *)

Module Workflow.

(** A number decoded from JSON, as a rational; [bool] is an [int]. *)
Definition number_of (v : json) : option Q :=
  match v with
  | JInt z => Some (inject_Z z)
  | JFloat q => Some q
  | JBool b => Some (if b then 1 else 0)%Q
  | _ => None
  end.

(** Lines 438-442: the answer of the model, cut at a [```json] fence when
    there is one, stripped and decoded. [None] is not a container. *)
Definition decode_answer (json_loads : string -> res json) (c : option string)
  : res json :=
  match c with
  | None => Raise (TypeError "argument of type 'NoneType' is not iterable")
  | Some text =>
      json_loads (strip (if contains "```json" text
                         then fenced "```json" text else text))
  end.

(** [round_data] of a round the model answered, lines 453-459. *)
Record model_round : Type := {
  round : nat;
  our_offer : Q;
  reasoning : json;
  their_response : Q;
  accepted : bool
}.

Section WithModel.

Variable json_loads : string -> res json.
(** [self.llm.invoke] for round [round_num] at price [current_price]. *)
Variable llm : nat -> Q -> reply.

(** The [try] block of one round, lines 432-459. *)
Definition model_move (round_num : nat) (current_price target_price : Q)
  : res model_round :=
  res_bind (match llm round_num current_price with
            | Raises e => Raise e
            | Content c => decode_answer json_loads c
            end) (fun negotiation_move =>
  res_bind (py_item negotiation_move "counter_offer") (fun counter_offer =>
  match number_of counter_offer with
  | None => Raise (TypeError "'>=' not supported between these instances")
  | Some new_price =>
      let accepted :=
        if Qle_bool (target_price * (95 # 100)) new_price then true
        else (round_num =? 3)%nat in
      res_bind (py_item negotiation_move "reasoning") (fun reasoning =>
      Ok {| round := round_num;
            our_offer := new_price;
            reasoning := reasoning;
            their_response :=
              if accepted then new_price else (current_price * (98 # 100))%Q;
            accepted := accepted |})
  end)).

(** One pass of the loop body with a model, lines 415-471. When the [try]
    block raises, the handler builds a [round_data] without
    ["their_response"], and line 471 reads that entry. *)
Definition model_round_or_fault (round_num : nat) (current_price target_price : Q)
  : res model_round :=
  try_except (model_move round_num current_price target_price)
             (fun _ => Raise (KeyError "their_response")).

(** The loop of lines 401-477 with a model. *)
Fixpoint model_loop (round_nums : list nat) (current_price target_price : Q)
  : res (list model_round * Q) :=
  match round_nums with
  | [] => Ok ([], current_price)
  | n :: ns =>
      res_bind (model_round_or_fault n current_price target_price) (fun round_data =>
      let current_price := their_response round_data in
      if accepted round_data then Ok ([round_data], current_price)
      else
        res_bind (model_loop ns current_price target_price) (fun rest =>
        Ok (round_data :: fst rest, snd rest)))
  end.

End WithModel.

(** The contract of [_finalize_contract], lines 511-530, without its random
    identifier and its time stamp. *)
Record contract : Type := {
  requesting_hospital : string;
  supplying_hospital : option string;
  resource_type : string;
  quantity : Z;
  unit_price : Q;
  total_price : Q;
  delivery_deadline : string;
  quality_standards : json;
  payment_terms : string;
  contract_status : string;
  summary_original_price : option Q;
  summary_final_price : Q;
  summary_savings : Q;
  summary_rounds : nat
}.

(** [dict.get(key, default)] on the entries of an offer. *)
Definition entry_or (key : string) (default : json) (o : LangGraph.offer) : json :=
  match assoc key (LangGraph.other_entries o) with
  | Some v => v
  | None => default
  end.

(** [_finalize_contract], lines 503-546: the new value of
    [state["final_contract"]], [None] when there is no best offer. The
    entries [requesting_hospital], [resource_type] and [delivery_deadline]
    of the state are given beside it. Dividing by a zero quantity raises
    [ZeroDivisionError]. *)
Definition _finalize_contract (requesting_hospital resource_type : string)
           (delivery_deadline : option string)
           (state : LangGraph.NegotiationState) : res (option contract) :=
  match LangGraph.best_offer state with
  | None => Ok None
  | Some best_offer =>
      if (LangGraph.quantity state =? 0)%Z
      then Raise (OtherError "division by zero")
      else
        Ok (Some
          {| requesting_hospital := requesting_hospital;
             supplying_hospital :=
               LangGraph.hospital_id (LangGraph.top_offer best_offer);
             resource_type := resource_type;
             quantity := LangGraph.quantity state;
             unit_price := (LangGraph.negotiated_price best_offer
                            / inject_Z (LangGraph.quantity state))%Q;
             total_price := LangGraph.negotiated_price best_offer;
             delivery_deadline :=
               match delivery_deadline with Some d => d | None => "ASAP" end;
             quality_standards :=
               entry_or "quality_certification" (JStr "Standard")
                        (LangGraph.top_offer best_offer);
             payment_terms := "Net 30 days";
             contract_status := "pending_signature";
             summary_original_price := LangGraph.original_price best_offer;
             summary_final_price := LangGraph.negotiated_price best_offer;
             summary_savings := LangGraph.savings best_offer;
             summary_rounds := LangGraph.negotiation_rounds_count best_offer |})
  end.

(** The nodes analyse, evaluate, negotiate and finalize in the order of the
    workflow, with [self.llm] unset. *)
Definition negotiate_without_model (requesting_hospital resource_type : string)
           (delivery_deadline : option string)
           (state : LangGraph.NegotiationState) : res (option contract) :=
  res_bind (LangGraph._negotiate
              (LangGraph._evaluate_offers (LangGraph._analyze_need state)))
           (_finalize_contract requesting_hospital resource_type delivery_deadline).

End Workflow.

(* ===================================================================== *)
(** ** Facts about the text helpers *)
(* ===================================================================== *)

Lemma prefix_app (p s : string) :
  prefix p s = true <-> exists post, s = (p ++ post)%string.
Proof.
  revert s; induction p as [|a p IH]; intros s.
  - split; [intros _; exists s; reflexivity | intros _; destruct s; reflexivity].
  - destruct s as [|b s]; simpl.
    + split; [discriminate | intros [post H]; discriminate].
    + destruct (ascii_dec a b) as [->|Hab].
      * rewrite IH. split; intros [post H]; exists post.
        -- now rewrite H.
        -- now inversion H.
      * split; [discriminate | intros [post H]; inversion H; subst; now elim Hab].
Qed.

Lemma contains_app (needle s : string) :
  contains needle s = true <-> exists pre post, s = (pre ++ needle ++ post)%string.
Proof.
  induction s as [|c s IH]; cbn [contains].
  - rewrite orb_false_r, prefix_app. split.
    + intros [post H]. exists EmptyString, post. exact H.
    + intros [pre [post H]]. destruct pre; simpl in H.
      * now exists post.
      * discriminate.
  - rewrite orb_true_iff, prefix_app, IH. split.
    + intros [[post H] | [pre [post H]]].
      * exists EmptyString, post. exact H.
      * exists (String c pre), post. simpl. now rewrite H.
    + intros [pre [post H]]. destruct pre as [|c' pre]; simpl in H.
      * left. now exists post.
      * right. inversion H. now exists pre, post.
Qed.

Lemma lower_app (a b : string) :
  lower (a ++ b) = (lower a ++ lower b)%string.
Proof. induction a as [|c a IH]; simpl; [reflexivity | now rewrite IH]. Qed.

Lemma lower_split (s a b : string) :
  lower s = (a ++ b)%string ->
  exists a' b', s = (a' ++ b')%string /\ lower a' = a /\ lower b' = b.
Proof.
  revert s; induction a as [|c a IH]; intros s H; simpl in H.
  - exists EmptyString, s. auto.
  - destruct s as [|d s]; simpl in H; [discriminate|].
    inversion H as [[Hc Hs]]. destruct (IH _ Hs) as [a' [b' [E [Ha Hb]]]].
    exists (String d a'), b'. simpl. rewrite E, Ha. auto.
Qed.

Lemma contains_lower (needle s : string) :
  contains needle (lower s) = true <-> occurs_ignoring_case needle s.
Proof.
  rewrite contains_app. split.
  - intros [pre [post H]].
    destruct (lower_split _ _ _ H) as [pre' [rest [E [_ Hrest]]]].
    destruct (lower_split _ _ _ Hrest) as [mid [post' [E' [Hmid _]]]].
    exists pre', mid, post'. subst. auto.
  - intros [pre [mid [post [E Hmid]]]]. subst.
    exists (lower pre), (lower post). now rewrite !lower_app.
Qed.

(* ===================================================================== *)
(** ** The personality classifier *)
(* ===================================================================== *)

(** C10. [_generate_personality] is a function into the three
    personalities: it answers [academic_collaborative] exactly when the
    name contains "teaching" up to case; otherwise [business_oriented]
    exactly when the type contains "private" up to case; otherwise
    [community_focused]. Fortis Medical Centre, of type "Private Teaching
    Hospital", is [business_oriented]. *)
Theorem personality_classifier (a : HospitalAgent) :
  let teaching := occurs_ignoring_case "teaching" (hospital_name a) in
  let private := occurs_ignoring_case "private" (get_type (hospital_data a)) in
  (personality a = academic_collaborative <-> teaching) /\
  (personality a = business_oriented <-> ~ teaching /\ private) /\
  (personality a = community_focused <-> ~ teaching /\ ~ private) /\
  map (fun x => personality (snd x)) (agents demo_hospitals)
  = [business_oriented; business_oriented; business_oriented].
Proof.
  intros teaching private. unfold personality, _generate_personality.
  assert (Ht := contains_lower "teaching" (hospital_name a)).
  assert (Hp := contains_lower "private" (get_type (hospital_data a))).
  fold teaching in Ht. fold private in Hp.
  split; [|split; [|split]]; [ | | | vm_compute; reflexivity ];
    rewrite <- Ht, <- ?Hp;
    destruct (contains "teaching" (lower (hospital_name a)));
    destruct (contains "private" (lower (get_type (hospital_data a))));
    intuition congruence.
Qed.

(* ===================================================================== *)
(** ** [sorted] is a stable ascending sort *)
(* ===================================================================== *)

Section SortedFacts.

Variables (A K : Type).
Variable key : A -> K.
Variable ltb : K -> K -> bool.

Hypothesis ltb_asym : forall a b, ltb a b = true -> ltb b a = false.
Hypothesis ltb_negtrans :
  forall a b c, ltb b a = false -> ltb c b = false -> ltb c a = false.

Lemma insert_by_perm (x : A) (l : list A) :
  Permutation (x :: l) (insert_by key ltb x l).
Proof.
  induction l as [|y l IH]; simpl; [reflexivity|].
  destruct (ltb (key y) (key x)); [|reflexivity].
  rewrite perm_swap. now constructor.
Qed.

Lemma sorted_perm (l : list A) : Permutation l (sorted key ltb l).
Proof.
  induction l as [|x l IH]; simpl; [constructor|].
  rewrite <- insert_by_perm. now constructor.
Qed.

Lemma insert_by_sorted (x : A) (l : list A) :
  StronglySorted (ascending key ltb) l -> StronglySorted (ascending key ltb) (insert_by key ltb x l).
Proof.
  induction 1 as [|y l Hs IH Hy]; simpl.
  - repeat constructor.
  - destruct (ltb (key y) (key x)) eqn:E.
    + constructor; [exact IH|].
      apply (Permutation_Forall (insert_by_perm x l)).
      constructor; [|exact Hy]. unfold ascending. now apply ltb_asym.
    + constructor; [now constructor|].
      constructor; [exact E|].
      revert Hy. apply Forall_impl. intros z Hz. unfold ascending in *.
      now apply ltb_negtrans with (b := key y).
Qed.

Lemma sorted_sorted (l : list A) : StronglySorted (ascending key ltb) (sorted key ltb l).
Proof.
  induction l as [|x l IH]; simpl; [constructor|].
  now apply insert_by_sorted.
Qed.

Lemma insert_by_stable (k : K) (x : A) (l : list A) :
  filter (fun z => tied ltb (key z) k) (insert_by key ltb x l)
  = filter (fun z => tied ltb (key z) k) (x :: l).
Proof.
  induction l as [|y l IH]; [reflexivity|].
  cbn [insert_by]. destruct (ltb (key y) (key x)) eqn:E; [|reflexivity].
  cbn [filter] in *. rewrite IH.
  destruct (tied ltb (key x) k) eqn:Ex; [|reflexivity].
  destruct (tied ltb (key y) k) eqn:Ey; [|reflexivity].
  exfalso. unfold tied in Ex, Ey.
  apply andb_true_iff in Ex, Ey. destruct Ex as [_ Ex], Ey as [Ey _].
  apply negb_true_iff in Ex, Ey.
  rewrite (ltb_negtrans Ex Ey) in E. discriminate.
Qed.

Lemma sorted_stable (k : K) (l : list A) :
  filter (fun z => tied ltb (key z) k) (sorted key ltb l)
  = filter (fun z => tied ltb (key z) k) l.
Proof.
  induction l as [|x l IH]; [reflexivity|].
  cbn [sorted]. rewrite insert_by_stable. cbn [filter]. now rewrite IH.
Qed.

End SortedFacts.

Lemma StronglySorted_weaken (A : Type) (R R' : A -> A -> Prop) (l : list A) :
  (forall a b, R a b -> R' a b) -> StronglySorted R l -> StronglySorted R' l.
Proof.
  intros HR. induction 1 as [|x l Hs IH Hx]; constructor; [exact IH|].
  revert Hx. apply Forall_impl. intros y. apply HR.
Qed.

Lemma Qlt_bool_false (a b : Q) : LangGraph.Qlt_bool a b = false <-> (b <= a)%Q.
Proof.
  unfold LangGraph.Qlt_bool. rewrite negb_false_iff. apply Qle_bool_iff.
Qed.

Lemma Qlt_bool_true (a b : Q) : LangGraph.Qlt_bool a b = true <-> (a < b)%Q.
Proof.
  unfold LangGraph.Qlt_bool. rewrite negb_true_iff. split.
  - intros H. apply Qnot_le_lt. intros Hle.
    apply Qle_bool_iff in Hle. congruence.
  - intros H. destruct (Qle_bool b a) eqn:E; [|reflexivity].
    apply Qle_bool_iff in E. exfalso. now apply (Qlt_not_le _ _ H).
Qed.

Lemma key_ltb_asym (a b : LangGraph.price_key) :
  LangGraph.key_ltb a b = true -> LangGraph.key_ltb b a = false.
Proof.
  destruct a as [x|], b as [y|]; simpl; try reflexivity; try discriminate.
  rewrite Qlt_bool_true, Qlt_bool_false. apply Qlt_le_weak.
Qed.

Lemma key_ltb_negtrans (a b c : LangGraph.price_key) :
  LangGraph.key_ltb b a = false -> LangGraph.key_ltb c b = false ->
  LangGraph.key_ltb c a = false.
Proof.
  destruct a as [x|], b as [y|], c as [z|]; simpl;
    try reflexivity; try discriminate.
  rewrite !Qlt_bool_false. intros H1 H2. now apply Qle_trans with y.
Qed.

Lemma price_le_key (a b : LangGraph.offer) :
  LangGraph.key_ltb (LangGraph.sort_key b) (LangGraph.sort_key a) = false
  <-> price_le a b.
Proof.
  unfold price_le, LangGraph.sort_key.
  destruct (LangGraph.total_price a), (LangGraph.total_price b); simpl;
    try rewrite Qlt_bool_false; intuition discriminate.
Qed.

(** C8. The fallback ranking is a rearrangement of the offers in ascending
    order of total price in which offers of equal total price keep the order
    they came in; for B (15000) and C (31500), in either order of arrival,
    the top choice is B. *)
Theorem fallback_ranking_stable_ascending (offers : list LangGraph.offer) :
  let ranked := LangGraph.rank_by_price offers in
  Permutation offers ranked /\
  StronglySorted price_le ranked /\
  (forall k, filter (same_price k) ranked = filter (same_price k) offers) /\
  (let B := priced_offer "B" 15000 in
   let C := priced_offer "C" 31500 in
   option_map LangGraph.top_choice
     (LangGraph.offer_evaluations
        (LangGraph._evaluate_offers (state_with_offers 8 [B; C])))
   = Some (Some B) /\
   option_map LangGraph.top_choice
     (LangGraph.offer_evaluations
        (LangGraph._evaluate_offers (state_with_offers 8 [C; B])))
   = Some (Some B) /\
   option_map LangGraph.ranked_offers
     (LangGraph.offer_evaluations
        (LangGraph.evaluation_failed (state_with_offers 8 [C; B])))
   = Some [B; C]).
Proof.
  intros ranked. unfold ranked, LangGraph.rank_by_price.
  repeat split.
  - apply sorted_perm.
  - eapply StronglySorted_weaken; [| apply sorted_sorted ].
    + intros a b H. apply price_le_key. exact H.
    + exact key_ltb_asym.
    + exact key_ltb_negtrans.
  - intros k. unfold same_price.
    apply (sorted_stable LangGraph.sort_key LangGraph.key_ltb key_ltb_negtrans).
Qed.

(* ===================================================================== *)
(** ** Price rounds without a language model *)
(* ===================================================================== *)

Lemma py_max_Qmax (a b : Q) : (LangGraph.py_max a b == Qmax a b)%Q.
Proof.
  unfold LangGraph.py_max. destruct (LangGraph.Qlt_bool a b) eqn:E.
  - apply Qlt_bool_true in E. symmetry. apply Q.max_r. now apply Qlt_le_weak.
  - apply Qlt_bool_false in E. symmetry. now apply Q.max_l.
Qed.

Lemma py_max_left (a b : Q) : (b <= a)%Q -> LangGraph.py_max a b = a.
Proof.
  intros H. unfold LangGraph.py_max. apply Qlt_bool_false in H. now rewrite H.
Qed.

Lemma Qle_bool_false (a b : Q) : (b < a)%Q -> Qle_bool a b = false.
Proof.
  intros H. destruct (Qle_bool a b) eqn:E; [|reflexivity].
  apply Qle_bool_iff in E. lra.
Qed.

Lemma negotiate_loop_shape (current target : Q) :
  let r1 := LangGraph.negotiate_round 1 current target in
  let r2 := LangGraph.negotiate_round 2 (LangGraph.their_response r1) target in
  let r3 := LangGraph.negotiate_round 3 (LangGraph.their_response r2) target in
  let rounds := fst (LangGraph.negotiate_loop [1; 2; 3]%nat current target) in
  (1 <= List.length rounds <= 3)%nat /\
  rounds = firstn (List.length rounds) [r1; r2; r3] /\
  map LangGraph.accepted rounds
  = (repeat false (List.length rounds - 1) ++ [true])%list /\
  (List.length rounds = 3%nat -> LangGraph.accepted r3 = true).
Proof.
  intros r1 r2 r3. cbn [LangGraph.negotiate_loop].
  change (LangGraph.negotiate_round 1 current target) with r1.
  change (LangGraph.negotiate_round 2 (LangGraph.their_response r1) target) with r2.
  change (LangGraph.negotiate_round 3 (LangGraph.their_response r2) target) with r3.
  assert (E3 : LangGraph.accepted r3 = true) by reflexivity.
  clearbody r3. clearbody r2. clearbody r1.
  destruct (LangGraph.accepted r1) eqn:E1.
  - cbn. rewrite E1. repeat split; auto; lia.
  - destruct (LangGraph.accepted r2) eqn:E2.
    + cbn. rewrite E1, E2. repeat split; auto; lia.
    + rewrite E3. cbn. rewrite E1, E2, E3. repeat split; auto; lia.
Qed.



(* ===================================================================== *)
(** ** Order of the steps of a generator *)
(* ===================================================================== *)

Lemma events_of_app (t1 t2 : list step) :
  events_of (t1 ++ t2) = events_of t1 ++ events_of t2.
Proof.
  induction t1 as [|[s|e] t1 IH]; simpl; [reflexivity | exact IH | now rewrite IH].
Qed.

Lemma yields_of_app (w1 w2 : list shape) :
  yields_of (w1 ++ w2) = yields_of w1 ++ yields_of w2.
Proof.
  induction w1 as [|[s|k a] w1 IH]; simpl; [reflexivity | exact IH | now rewrite IH].
Qed.

Lemma assigns_of_app (w1 w2 : list shape) :
  assigns_of (w1 ++ w2) = assigns_of w1 ++ assigns_of w2.
Proof.
  induction w1 as [|[s|k a] w1 IH]; simpl; [reflexivity | now rewrite IH | exact IH].
Qed.

Lemma yields_of_shapes (t : list step) :
  yields_of (map shape_of t) = map kind_of (events_of t).
Proof.
  induction t as [|[s|e] t IH]; simpl; [reflexivity | exact IH | now rewrite IH].
Qed.

Lemma assigns_of_shapes (t : list step) :
  assigns_of (map shape_of t) = statuses_of t.
Proof.
  induction t as [|[s|e] t IH]; simpl; [reflexivity | now rewrite IH | exact IH].
Qed.

Lemma conforms_map {A B C : Type} (f : list A -> list B) (r : res C)
      (done full : list A) :
  (forall a b, f (a ++ b) = f a ++ f b) ->
  conforms r done full -> conforms r (f done) (f full).
Proof.
  intros Hf [[rest E] Hok]. split.
  - exists (f rest). now rewrite E, Hf.
  - intros H. now rewrite (Hok H).
Qed.

Section Follows.

Lemma follows_weaken {A : Type} (m : Gen A) (L L' : list shape -> Prop) :
  (forall w, L w -> L' w) -> follows m L -> follows m L'.
Proof.
  intros HL Hm s. specialize (Hm s). destruct (m s) as [[r s'] t].
  destruct Hm as [full [Hfull Hc]]. exists full. auto.
Qed.

Lemma follows_bind {A B : Type} (m : Gen A) (k : A -> Gen B)
      (L1 L2 : list shape -> Prop) :
  follows m L1 -> (forall a, follows (k a) L2) -> (exists w, L2 w) ->
  follows (bind m k) (seq_lang L1 L2).
Proof.
  intros Hm Hk [w2 Hw2] s. unfold bind. specialize (Hm s).
  destruct (m s) as [[r1 s1] t1].
  destruct Hm as [f1 [Hf1 [[rest1 E1] Hok1]]].
  destruct r1 as [a|e].
  - specialize (Hk a s1). destruct (k a s1) as [[r2 s2] t2].
    destruct Hk as [f2 [Hf2 [[rest2 E2] Hok2]]].
    exists (f1 ++ f2). split; [now exists f1, f2|].
    rewrite map_app. rewrite <- (Hok1 eq_refl). split.
    + exists rest2. now rewrite E2, app_assoc.
    + intros H. now rewrite (Hok2 H).
  - exists (f1 ++ w2). split; [now exists f1, w2|]. split.
    + exists (rest1 ++ w2). now rewrite E1, app_assoc.
    + discriminate.
Qed.

Lemma follows_silent {A : Type} (m : Gen A) :
  (forall s, snd (m s) = []) -> follows m (fun w => w = []).
Proof.
  intros H s. specialize (H s). destruct (m s) as [[r s'] t]. simpl in H.
  subst t. exists []. repeat split; auto. now exists [].
Qed.

Lemma follows_one (m : Gen unit) (x : step) :
  (forall s, exists s', m s = (Ok tt, s', [x])) ->
  follows m (fun w => w = [shape_of x]).
Proof.
  intros H s. destruct (H s) as [s' E]. rewrite E.
  exists [shape_of x]. repeat split; auto. now exists [].
Qed.

Lemma follows_yield (e : event) :
  follows (yield_ e) (fun w => w = [SYield (kind_of e) (agent_in e)]).
Proof. apply (@follows_one (yield_ e) (Yielded e)). intros s. now exists s. Qed.

Lemma follows_set_status (st : status) :
  follows (set_status st) (fun w => w = [SAssign st]).
Proof.
  apply (@follows_one (set_status st) (Assigned st)).
  intros s. now exists (with_status st s).
Qed.

Lemma follows_lift {A : Type} (r : res A) : follows (lift r) (fun w => w = []).
Proof. now apply follows_silent. Qed.

Lemma follows_ret {A : Type} (a : A) : follows (ret a) (fun w => w = []).
Proof. now apply follows_silent. Qed.

Lemma follows_get_session : follows get_session (fun w => w = []).
Proof. now apply follows_silent. Qed.

(** Sequencing with a piece that performs no step. *)
Lemma follows_after_silent {A B : Type} (m : Gen A) (k : A -> Gen B)
      (L : list shape -> Prop) :
  follows m (fun w => w = []) -> (forall a, follows (k a) L) -> (exists w, L w) ->
  follows (bind m k) L.
Proof.
  intros Hm Hk Hne. eapply follows_weaken; [|eapply follows_bind; eauto].
  intros w [w1 [w2 [E [E1 H2]]]]. subst. exact H2.
Qed.

(** Sequencing after a piece that performs exactly the steps [w1]. *)
Lemma follows_after {A B : Type} (m : Gen A) (k : A -> Gen B)
      (w1 : list shape) (L : list shape -> Prop) :
  follows m (fun w => w = w1) -> (forall a, follows (k a) L) -> (exists w, L w) ->
  follows (bind m k) (fun w => exists w2, w = w1 ++ w2 /\ L w2).
Proof.
  intros Hm Hk Hne. eapply follows_weaken; [|eapply follows_bind; eauto].
  intros w [w1' [w2 [E [E1 H2]]]]. subst. now exists w2.
Qed.

End Follows.

(* ===================================================================== *)
(** ** Order of the steps of a negotiation *)
(* ===================================================================== *)

Section NegotiationOrder.

Variable json_loads : string -> res json.
Variable client : oracle_call -> reply.
Variable svc : MultiAgentCoordinationService.
Variable rq : ResourceRequest.

Local Ltac conforming b :=
  eexists; split;
  [ exists b; reflexivity
  | split; [ eexists; simpl; reflexivity
           | simpl; intros; try discriminate; reflexivity ] ].

Lemma follows_collect_one (resource_type hid : string) :
  follows (collect_one json_loads client svc rq resource_type hid)
          (fun w => exists b, w = collect_block [name_of svc hid] [b]).
Proof.
  intros s.
  unfold collect_one, bind, lift, yield_, append_message, append_offer,
    agent_of, name_of.
  destruct (assoc hid (agents svc)) as [a|]; [|conforming false].
  destruct (analyze_request json_loads client a rq) as [analysis|e];
    [|conforming false].
  destruct (py_get analysis "can_help") as [can_help|e]; [|conforming false].
  destruct (opt_truthy can_help).
  - destruct (py_item analysis "quantity_available"); [|conforming true].
    destruct (py_item analysis "proposed_price_per_unit"); [|conforming true].
    destruct (py_get analysis "conditions"); [|conforming true].
    destruct (py_get analysis "reasoning"); conforming true.
  - destruct (py_get analysis "reasoning"); conforming false.
Qed.

Lemma follows_collect_all (resource_type : string) (ids : list string) :
  follows (for_each ids (collect_one json_loads client svc rq resource_type))
          (fun w => exists bs, List.length bs = List.length ids /\
                               w = collect_block (map (name_of svc) ids) bs).
Proof.
  induction ids as [|hid ids IH]; cbn [for_each].
  - eapply follows_weaken; [|apply follows_ret].
    intros w ->. now exists [].
  - eapply follows_weaken;
      [|eapply follows_bind; [apply follows_collect_one | intros _; exact IH |]].
    + intros w [w1 [w2 [E [[b E1] [bs [Hlen E2]]]]]]. subst.
      exists (b :: bs). split; [simpl; now rewrite Hlen | reflexivity].
    + exists (collect_block (map (name_of svc) ids) (repeat false (List.length ids))).
      exists (repeat false (List.length ids)). now rewrite repeat_length.
Qed.

Lemma follows_negotiate_one (all_offers : list ResourceOffer) (o : ResourceOffer) :
  follows (negotiate_one json_loads client svc rq all_offers o)
          (fun w => exists names,
               w = map (fun n => SYield K_offer_adjusted (Some n)) names).
Proof.
  intros s. unfold negotiate_one, bind, lift, yield_, ret, agent_of.
  destruct (assoc (offer_hospital_id o) (agents svc)) as [a|];
    [|conforming (@nil string)].
  destruct (negotiate_offer json_loads client a rq all_offers) as [result|e];
    [|conforming (@nil string)].
  destruct (py_get result "adjust_offer") as [adjust|e];
    [|conforming (@nil string)].
  destruct (opt_truthy adjust);
    [conforming [hospital_name a] | conforming (@nil string)].
Qed.

Lemma follows_negotiate_all (all_offers os : list ResourceOffer) :
  follows (for_each os (negotiate_one json_loads client svc rq all_offers))
          (fun w => exists names,
               w = map (fun n => SYield K_offer_adjusted (Some n)) names).
Proof.
  induction os as [|o os IH]; cbn [for_each].
  - eapply follows_weaken; [|apply follows_ret].
    intros w ->. now exists [].
  - eapply follows_weaken;
      [|eapply follows_bind; [apply follows_negotiate_one | intros _; exact IH |]].
    + intros w [w1 [w2 [E [[n1 E1] [n2 E2]]]]]. subst.
      exists (n1 ++ n2). now rewrite map_app.
    + exists []. now exists [].
Qed.

Lemma follows_negotiation_round :
  follows (negotiation_round json_loads client svc rq)
          (fun w => exists adjusting, w = negotiation_block adjusting).
Proof.
  unfold negotiation_round.
  apply follows_after_silent; [apply follows_get_session | | now exists [], None].
  intros session.
  destruct (1 <? List.length (offers session))%nat.
  - eapply follows_weaken;
      [|eapply follows_after;
         [apply follows_set_status
         |intros _; eapply follows_after;
            [apply follows_yield | intros _; apply follows_negotiate_all |]
         |]].
    + intros w [w2 [E [w3 [E3 [names E4]]]]]. subst.
      now exists (Some names).
    + exists []. now exists [].
    + eexists. exists []. split; [reflexivity|]. now exists [].
  - eapply follows_weaken; [|apply follows_ret].
    intros w ->. now exists None.
Qed.

Lemma follows_decision_phase :
  follows (decision_phase json_loads client) (fun w => w = decision_block).
Proof.
  intros s.
  unfold decision_phase, bind, lift, yield_, set_status, get_session,
    set_final_agreement.
  destruct (_make_decision json_loads client (with_status deciding s)) as [d|e].
  - exists decision_block. repeat split. now exists [].
  - exists decision_block. repeat split; [|discriminate].
    simpl. now eexists.
Qed.

Lemma follows_negotiation_body (ids : list string) :
  follows (negotiation_body json_loads client svc rq ids)
          (fun w => exists bs adjusting,
               List.length bs = List.length ids /\
               w = full_run (map (name_of svc) ids) bs adjusting).
Proof.
  unfold negotiation_body.
  assert (Hrest :
    follows (bind (for_each ids (collect_one json_loads client svc rq (req_resource_type rq)))
               (fun _ => bind (negotiation_round json_loads client svc rq)
                            (fun _ => decision_phase json_loads client)))
            (fun w => exists bs adjusting,
                 List.length bs = List.length ids /\
                 w = collect_block (map (name_of svc) ids) bs
                     ++ negotiation_block adjusting ++ decision_block)).
  { eapply follows_weaken;
      [|eapply follows_bind;
         [apply follows_collect_all
         |intros _; eapply follows_bind;
            [apply follows_negotiation_round
            |intros _; apply follows_decision_phase
            |now exists decision_block]
         |]].
    - intros w [w1 [w2 [E [[bs [Hlen E1]] [w3 [w4 [E2 [[adj E3] E4]]]]]]]].
      subst. now exists bs, adj.
    - exists ([] ++ decision_block), [], decision_block.
      repeat split. now exists None. }
  assert (Hne : exists w, (fun w => exists bs adjusting,
                 List.length bs = List.length ids /\
                 w = collect_block (map (name_of svc) ids) bs
                     ++ negotiation_block adjusting ++ decision_block) w).
  { exists (collect_block (map (name_of svc) ids) (repeat false (List.length ids))
            ++ negotiation_block None ++ decision_block).
    exists (repeat false (List.length ids)), None.
    now rewrite repeat_length. }
  set (L0 := fun w : list shape => exists bs adjusting,
                 List.length bs = List.length ids /\
                 w = collect_block (map (name_of svc) ids) bs
                     ++ negotiation_block adjusting ++ decision_block) in *.
  set (L1 := fun w => exists w2, w = [SAssign collecting_responses] ++ w2 /\ L0 w2).
  set (L2 := fun w => exists w2, w = [SYield K_broadcasting_request None] ++ w2 /\ L1 w2).
  set (L3 := fun w => exists w2, w = [SAssign broadcasting] ++ w2 /\ L2 w2).
  assert (Hne1 : exists w, L1 w).
  { destruct Hne as [w Hw]. eexists. exists w. split; [reflexivity|exact Hw]. }
  assert (Hne2 : exists w, L2 w).
  { destruct Hne1 as [w Hw]. eexists. exists w. split; [reflexivity|exact Hw]. }
  assert (Hne3 : exists w, L3 w).
  { destruct Hne2 as [w Hw]. eexists. exists w. split; [reflexivity|exact Hw]. }
  assert (H1 : follows (bind (set_status collecting_responses)
                (fun _ => bind (for_each ids (collect_one json_loads client svc rq (req_resource_type rq)))
                   (fun _ => bind (negotiation_round json_loads client svc rq)
                               (fun _ => decision_phase json_loads client)))) L1).
  { apply follows_after; [apply follows_set_status | intros _; exact Hrest | exact Hne]. }
  eapply follows_weaken;
    [|apply (@follows_after _ _ _ _ [SYield K_negotiation_initiated None] L3);
      [apply (follows_yield (negotiation_initiated rq)) | intros _ | exact Hne3]].
  - intros w [w1 [-> [w2 [-> [w3 [-> [w4 [-> [bs [adj [Hlen ->]]]]]]]]]]].
    now exists bs, adj.
  - apply follows_after; [apply follows_set_status | intros _ | exact Hne2].
    apply follows_after_silent; [apply follows_lift | intros names | exact Hne2].
    apply (@follows_after _ _ _ _ [SYield K_broadcasting_request None] L1);
      [apply (follows_yield (broadcasting_request names)) | intros _; exact H1
      | exact Hne1].
Qed.

End NegotiationOrder.

(* ===================================================================== *)
(** ** Where [negotiation_completed] is yielded *)
(* ===================================================================== *)

Section Completion.

Variable json_loads : string -> res json.
Variable client : oracle_call -> reply.
Variable svc : MultiAgentCoordinationService.
Variable rq : ResourceRequest.

Lemma clean_bind {A B : Type} (m : Gen A) (k : A -> Gen B) :
  clean m -> (forall a, clean (k a)) -> clean (bind m k).
Proof.
  intros Hm Hk s. unfold bind. specialize (Hm s).
  destruct (m s) as [[[a|e] s1] t1]; [|exact Hm].
  specialize (Hk a s1). destruct (k a s1) as [[r2 s2] t2].
  rewrite events_of_app. apply Forall_app. now split.
Qed.

Lemma clean_silent {A : Type} (m : Gen A) :
  (forall s, snd (m s) = []) -> clean m.
Proof.
  intros H s. specialize (H s). destruct (m s) as [[r s'] t].
  simpl in H. subst. constructor.
Qed.

Lemma clean_yield (e : event) : is_completion e = false -> clean (yield_ e).
Proof. intros H s. simpl. now repeat constructor. Qed.

Lemma clean_set_status (st : status) : clean (set_status st).
Proof. intros s. simpl. constructor. Qed.

Lemma clean_for_each {A : Type} (xs : list A) (body : A -> Gen unit) :
  (forall x, clean (body x)) -> clean (for_each xs body).
Proof.
  intros H. induction xs as [|x xs IH]; cbn [for_each].
  - now apply clean_silent.
  - apply clean_bind; auto.
Qed.

Local Ltac cleaned := simpl; repeat constructor.

Lemma clean_collect_one (resource_type hid : string) :
  clean (collect_one json_loads client svc rq resource_type hid).
Proof.
  intros s.
  unfold collect_one, bind, lift, yield_, append_message, append_offer.
  destruct (agent_of svc hid) as [a|]; [|cleaned].
  destruct (analyze_request json_loads client a rq) as [analysis|e]; [|cleaned].
  destruct (py_get analysis "can_help") as [can_help|e]; [|cleaned].
  destruct (opt_truthy can_help).
  - destruct (py_item analysis "quantity_available"); [|cleaned].
    destruct (py_item analysis "proposed_price_per_unit"); [|cleaned].
    destruct (py_get analysis "conditions"); [|cleaned].
    destruct (py_get analysis "reasoning"); cleaned.
  - destruct (py_get analysis "reasoning"); cleaned.
Qed.

Lemma clean_negotiate_one (all_offers : list ResourceOffer) (o : ResourceOffer) :
  clean (negotiate_one json_loads client svc rq all_offers o).
Proof.
  intros s. unfold negotiate_one, bind, lift, yield_, ret.
  destruct (agent_of svc (offer_hospital_id o)) as [a|]; [|cleaned].
  destruct (negotiate_offer json_loads client a rq all_offers) as [result|e];
    [|cleaned].
  destruct (py_get result "adjust_offer") as [adjust|e]; [|cleaned].
  destruct (opt_truthy adjust); cleaned.
Qed.

Lemma clean_negotiation_round :
  clean (negotiation_round json_loads client svc rq).
Proof.
  unfold negotiation_round. apply clean_bind; [now apply clean_silent|].
  intros session. destruct (1 <? List.length (offers session))%nat.
  - apply clean_bind; [apply clean_set_status|]. intros _.
    apply clean_bind; [now apply clean_yield|]. intros _.
    apply clean_for_each. intros o. apply clean_negotiate_one.
  - now apply clean_silent.
Qed.

Lemma ends_bind {A : Type} (m : Gen A) (k : A -> Gen unit) :
  clean m -> (forall a, ends (k a)) -> ends (bind m k).
Proof.
  intros Hm Hk s. unfold bind. specialize (Hm s).
  destruct (m s) as [[[a|e] s1] t1]; [|exact Hm].
  specialize (Hk a s1). destruct (k a s1) as [[[[]|e2] s2] t2];
    rewrite events_of_app.
  - destruct Hk as [es [d [E Hes]]].
    exists (events_of t1 ++ es), d. rewrite E, app_assoc. split; [reflexivity|].
    apply Forall_app. now split.
  - apply Forall_app. now split.
Qed.

Lemma ends_decision_phase : ends (decision_phase json_loads client).
Proof.
  intros s.
  unfold decision_phase, bind, lift, yield_, set_status, get_session,
    set_final_agreement.
  destruct (_make_decision json_loads client (with_status deciding s)) as [d|e];
    simpl.
  - exists [making_decision], d. now repeat constructor.
  - now repeat constructor.
Qed.

Lemma ends_negotiation_body (ids : list string) :
  ends (negotiation_body json_loads client svc rq ids).
Proof.
  unfold negotiation_body.
  apply ends_bind; [now apply clean_yield|]. intros _.
  apply ends_bind; [apply clean_set_status|]. intros _.
  apply ends_bind; [now apply clean_silent|]. intros names.
  apply ends_bind; [now apply clean_yield|]. intros _.
  apply ends_bind; [apply clean_set_status|]. intros _.
  apply ends_bind;
    [apply clean_for_each; intros hid; apply clean_collect_one|]. intros _.
  apply ends_bind; [apply clean_negotiation_round|]. intros _.
  apply ends_decision_phase.
Qed.

End Completion.

Lemma no_terminal_data (es : list event) :
  Forall (fun e => is_completion e = false) es ->
  filter is_terminal (map data es) = [].
Proof.
  induction 1 as [|e es He Hes IH]; [reflexivity|]. simpl.
  destruct e; try discriminate; exact IH.
Qed.

(* ===================================================================== *)
(** ** The negotiation seen by its observers *)
(* ===================================================================== *)

Lemma yields_of_collect_block (names : list string) (bs : list bool) :
  List.length bs = List.length names ->
  yields_of (collect_block names bs)
  = flat_map (fun b => [K_agent_analyzing; answer_kind b]) bs.
Proof.
  revert bs; induction names as [|n names IH]; intros [|b bs] H;
    try discriminate; [reflexivity|].
  simpl. f_equal. f_equal. apply IH. now inversion H.
Qed.

Lemma assigns_of_collect_block (names : list string) (bs : list bool) :
  assigns_of (collect_block names bs) = [].
Proof.
  revert bs; induction names as [|n names IH]; intros [|b bs];
    try reflexivity. simpl. apply IH.
Qed.

Lemma analyzed_collect_block (names : list string) (bs : list bool) :
  List.length bs = List.length names ->
  analyzed_shapes (collect_block names bs) = names.
Proof.
  revert bs; induction names as [|n names IH]; intros [|b bs] H;
    try discriminate; [reflexivity|].
  simpl. destruct b; simpl; f_equal; apply IH; now inversion H.
Qed.

Lemma yields_of_negotiation_block (adjusting : option (list string)) :
  yields_of (negotiation_block adjusting)
  = round_kinds (option_map (@List.length string) adjusting).
Proof.
  destruct adjusting as [names|]; [|reflexivity]. simpl. f_equal.
  induction names as [|n names IH]; simpl; [reflexivity | now rewrite IH].
Qed.

Lemma assigns_of_negotiation_block (adjusting : option (list string)) :
  assigns_of (negotiation_block adjusting)
  = match adjusting with Some _ => [negotiating] | None => [] end.
Proof.
  destruct adjusting as [names|]; [|reflexivity]. simpl. f_equal.
  induction names as [|n names IH]; simpl; [reflexivity | exact IH].
Qed.

Lemma analyzed_negotiation_block (adjusting : option (list string)) :
  analyzed_shapes (negotiation_block adjusting) = [].
Proof.
  destruct adjusting as [names|]; [|reflexivity]. simpl.
  induction names as [|n names IH]; simpl; [reflexivity | exact IH].
Qed.

Lemma analyzed_shapes_app (w1 w2 : list shape) :
  analyzed_shapes (w1 ++ w2) = analyzed_shapes w1 ++ analyzed_shapes w2.
Proof.
  induction w1 as [|[s|k [a|]] w1 IH]; [reflexivity | exact IH | |];
    destruct k; simpl; try exact IH. now rewrite IH.
Qed.

Lemma analyzed_of_shapes (t : list step) :
  analyzed_shapes (map shape_of t) = analyzed (events_of t).
Proof.
  induction t as [|[s|e] t IH]; simpl; [reflexivity | exact IH |].
  destruct e; simpl; try exact IH. now rewrite IH.
Qed.

Lemma conforms_nil {A B : Type} (e : exn) (full : list A) :
  conforms (@Raise B e) [] full.
Proof. split; [now exists full | discriminate]. Qed.

Lemma conforms_cons {A B : Type} (r : res B) (x : A) (done full : list A) :
  conforms r done full -> conforms r (x :: done) (x :: full).
Proof.
  intros [[rest E] Hok]. split.
  - exists rest. now rewrite E.
  - intros H. now rewrite (Hok H).
Qed.

Lemma StronglySorted_app_l {A : Type} (R : A -> A -> Prop) (l1 l2 : list A) :
  StronglySorted R (l1 ++ l2) -> StronglySorted R l1.
Proof.
  induction l1 as [|x l1 IH]; simpl; intros H; [constructor|].
  inversion H as [|? ? Hs Hx]; subst. constructor; [now apply IH|].
  apply Forall_app in Hx. tauto.
Qed.

Lemma sorted_never_back (h : list status) :
  StronglySorted (fun a b => rank a < rank b) h ->
  ~ In collecting_responses (after_negotiating h).
Proof.
  induction 1 as [|x h Hs IH Hx]; simpl; [tauto|].
  destruct x; try exact IH.
  intros Hin. rewrite Forall_forall in Hx. specialize (Hx _ Hin).
  simpl in Hx. lia.
Qed.



(** C5. The status of the session only moves forward through initiated,
    broadcasting, collecting_responses, negotiating, deciding, completed,
    possibly skipping negotiating: the statuses the session goes through are
    all of that list when the generator runs to its end and an initial part
    of it when it raises; they are strictly increasing in the order of the
    phases, and after negotiating the session is never in
    collecting_responses again. *)
Theorem status_moves_forward
        (json_loads : string -> res json) (client : oracle_call -> reply)
        (svc : MultiAgentCoordinationService)
        (initiator_hospital_id resource_type : string) (quantity : Z)
        (urgency : string) (duration_days : Z) (max_budget : Q)
        (additional_details : option json) :
  let r := initiate_negotiation json_loads client svc initiator_hospital_id
             resource_type quantity urgency duration_days max_budget
             additional_details in
  (conforms (outcome r) (status_history r) phases_with_round \/
   conforms (outcome r) (status_history r) phases_without_round) /\
  StronglySorted (fun a b => rank a < rank b) (status_history r) /\
  ~ In collecting_responses (after_negotiating (status_history r)) /\
  ~ In failed (status_history r).
Proof.
  intros r.
  assert (Hc : conforms (outcome r) (status_history r) phases_with_round \/
               conforms (outcome r) (status_history r) phases_without_round).
  { unfold r, initiate_negotiation, status_history.
    destruct (agent_of svc initiator_hospital_id) as [a|e];
      cbn [outcome steps final_session].
    2:{ left. apply conforms_nil. }
    match goal with
    | |- context [negotiation_body ?l ?c ?s ?q ?ids ?ses] =>
        pose proof (follows_negotiation_body l c s q ids ses) as H;
        destruct (negotiation_body l c s q ids ses) as [[ro so] t]
    end.
    destruct H as [full [[bs [adj [Hlen ->]]] Hc]].
    cbn [outcome steps final_session].
    apply (conforms_map assigns_of) in Hc; [|apply assigns_of_app].
    rewrite assigns_of_shapes in Hc. unfold full_run in Hc.
    rewrite !assigns_of_app, assigns_of_collect_block,
      assigns_of_negotiation_block in Hc.
    destruct adj; [left|right]; apply conforms_cons; exact Hc. }
  assert (Hs : StronglySorted (fun a b => rank a < rank b) (status_history r)).
  { destruct Hc as [[[rest E] _]|[[rest E] _]];
      apply StronglySorted_app_l with rest; rewrite <- E;
      repeat constructor; simpl; lia. }
  split; [exact Hc|]. split; [exact Hs|]. split; [now apply sorted_never_back|].
  intros Hin.
  destruct Hc as [[[rest E] _]|[[rest E] _]];
    assert (Hin' : In failed (status_history r ++ rest))
      by (apply in_or_app; now left);
    rewrite <- E in Hin'; simpl in Hin'; intuition discriminate.
Qed.

(** C4, as amended. An exception that escapes a phase leaves the generator
    of the orchestrator; the event generator of the route turns it into one
    [error] item carrying the text of the exception, the last item of the
    stream. A run that ends normally closes the stream with
    [negotiation_completed] followed by [stream_complete]. Either way the
    stream holds exactly one of [negotiation_completed] and [error]. *)
Theorem stream_has_one_terminal_event
        (json_loads : string -> res json) (client : oracle_call -> reply)
        (svc : MultiAgentCoordinationService)
        (initiator_hospital_id resource_type : string) (quantity : Z)
        (urgency : string) (duration_days : Z) (max_budget : Q)
        (additional_details : option json) :
  let r := initiate_negotiation json_loads client svc initiator_hospital_id
             resource_type quantity urgency duration_days max_budget
             additional_details in
  let stream := event_generator r in
  List.length (filter is_terminal stream) = 1%nat /\
  match outcome r with
  | Ok _ => exists es decision,
      stream = map data es
               ++ [data (negotiation_completed decision); stream_complete]
  | Raise e => stream = map data (events r) ++ [error (exn_str e)]
  end.
Proof.
  intros r stream. unfold stream, r, initiate_negotiation, event_generator, events.
  destruct (agent_of svc initiator_hospital_id) as [a|e]; cbn [outcome steps].
  2:{ split; reflexivity. }
  match goal with
  | |- context [negotiation_body ?l ?c ?s ?q ?ids ?ses] =>
      pose proof (ends_negotiation_body l c s q ids ses) as H;
      destruct (negotiation_body l c s q ids ses) as [[[[]|e] so] t]
  end; cbn [outcome steps].
  - destruct H as [es [d [E Hes]]]. rewrite E, map_app, <- app_assoc. split.
    + rewrite filter_app, (no_terminal_data Hes). reflexivity.
    + now exists es, d.
  - split; [|reflexivity].
    rewrite filter_app, (no_terminal_data H). reflexivity.
Qed.

(** C4, as stated, fails: when each agent answers [{"can_help": true}] the
    generator raises [KeyError] while it builds the first offer, it has
    emitted no [error] event, and the session stays in
    [collecting_responses]; it never enters [failed]. *)
Lemma error_leaves_session_in_phase :
  let r := sample_run sample_loads client_can_help_only demo_hospitals in
  outcome r = Raise (KeyError "quantity_available") /\
  kinds r = [K_negotiation_initiated; K_broadcasting_request; K_agent_analyzing] /\
  option_map session_status (final_session r) = Some collecting_responses /\
  option_map session_status (final_session r) <> Some failed /\
  status_history r = [initiated; broadcasting; collecting_responses] /\
  event_generator r
  = map data (events r) ++ [error "'quantity_available'"].
Proof. vm_compute. repeat split. discriminate. Qed.

(* ===================================================================== *)
(** ** When every agent declines *)
(* ===================================================================== *)

Lemma assoc_in_keys {A : Type} (k : string) (d : list (string * A)) :
  In k (map fst d) -> exists a, assoc k d = Some a.
Proof.
  induction d as [|[k' v] d IH]; simpl; [tauto|].
  intros [->|H].
  - rewrite String.eqb_refl. now exists v.
  - destruct (String.eqb k k'); [now exists v | now apply IH].
Qed.

Lemma participants_registered (svc : MultiAgentCoordinationService)
      (initiator hid : string) :
  In hid (participants_of svc initiator) ->
  exists a, assoc hid (agents svc) = Some a.
Proof.
  unfold participants_of. intros H. apply filter_In in H.
  apply assoc_in_keys. tauto.
Qed.

Lemma participant_names_ok (svc : MultiAgentCoordinationService)
      (ids : list string) :
  (forall hid, In hid ids -> exists a, assoc hid (agents svc) = Some a) ->
  exists names, participant_names svc ids = Ok names.
Proof.
  induction ids as [|hid ids IH]; intros H; simpl; [now exists []|].
  destruct (H hid (or_introl eq_refl)) as [a Ha].
  destruct IH as [names Hn]; [intros h Hh; apply H; now right|].
  unfold agent_of. rewrite Ha. simpl. rewrite Hn. simpl. now eexists.
Qed.

Section Declined.

Variable json_loads : string -> res json.
Variable client : oracle_call -> reply.
Variable svc : MultiAgentCoordinationService.
Variable rq : ResourceRequest.

Lemma collect_all_decline (resource_type : string) (ids : list string) :
  (forall hid, In hid ids -> exists a, assoc hid (agents svc) = Some a) ->
  all_decline json_loads client svc ids ->
  forall s, exists s' t,
    for_each ids (collect_one json_loads client svc rq resource_type) s
    = (Ok tt, s', t) /\
    offers s' = offers s /\ final_agreement s' = final_agreement s.
Proof.
  induction ids as [|hid ids IH]; intros Hreg Hdecl s; cbn [for_each].
  - now exists s, [].
  - destruct (Hreg hid (or_introl eq_refl)) as [a Ha].
    destruct (Hdecl hid a rq (or_introl eq_refl) Ha) as [v [c [E1 [E2 E3]]]].
    assert (Hone : exists s1 t1,
               collect_one json_loads client svc rq resource_type hid s
               = (Ok tt, s1, t1) /\
               offers s1 = offers s /\ final_agreement s1 = final_agreement s).
    { unfold collect_one, bind, lift, yield_, append_message, agent_of.
      rewrite Ha, E1, E2, E3.
      destruct v; try discriminate. simpl. now do 2 eexists. }
    destruct Hone as [s1 [t1 [E [Ho Hf]]]].
    destruct (IH (fun h Hh => Hreg h (or_intror Hh))
                 (fun h a' rq' Hh => Hdecl h a' rq' (or_intror Hh)) s1)
      as [s2 [t2 [E' [Ho' Hf']]]].
    unfold bind at 1. rewrite E, E'. exists s2, (t1 ++ t2).
    repeat split; congruence.
Qed.

Lemma body_all_decline (ids : list string) (s : NegotiationSession) :
  (forall hid, In hid ids -> exists a, assoc hid (agents svc) = Some a) ->
  all_decline json_loads client svc ids ->
  offers s = [] ->
  exists s' t es,
    negotiation_body json_loads client svc rq ids s = (Ok tt, s', t) /\
    session_status s' = completed /\
    offers s' = [] /\
    final_agreement s' = Some no_offers_decision /\
    events_of t = es ++ [negotiation_completed no_offers_decision].
Proof.
  intros Hreg Hdecl Hs.
  destruct (participant_names_ok svc ids Hreg) as [names Hn].
  destruct (collect_all_decline (req_resource_type rq) Hreg Hdecl
              (with_status collecting_responses (with_status broadcasting s)))
    as [s1 [t1 [E [Ho Hf]]]].
  simpl in Ho. rewrite Hs in Ho.
  unfold negotiation_body, bind, yield_, set_status, lift.
  rewrite Hn, E.
  unfold negotiation_round, bind, get_session. rewrite Ho. simpl.
  unfold decision_phase, bind, yield_, set_status, lift, get_session,
    set_final_agreement, _make_decision.
  simpl. rewrite Ho. simpl.
  do 2 eexists. eexists (_ :: _ :: events_of t1 ++ [making_decision]).
  split; [reflexivity|]. repeat split; auto.
  cbn [events_of]. rewrite events_of_app. cbn [events_of app].
  rewrite <- app_assoc. reflexivity.
Qed.

End Declined.




(* ===================================================================== *)
(** ** The offers during the negotiation round *)
(* ===================================================================== *)

Section OfferFrame.

Variable json_loads : string -> res json.
Variable client : oracle_call -> reply.
Variable svc : MultiAgentCoordinationService.
Variable rq : ResourceRequest.

Lemma negotiate_one_frame (all_offers : list ResourceOffer) (o : ResourceOffer)
      (s : NegotiationSession) :
  snd (fst (negotiate_one json_loads client svc rq all_offers o s)) = s.
Proof.
  unfold negotiate_one, bind, lift, yield_, ret.
  destruct (agent_of svc (offer_hospital_id o)) as [a|]; [|reflexivity].
  destruct (negotiate_offer json_loads client a rq all_offers) as [result|e];
    [|reflexivity].
  destruct (py_get result "adjust_offer") as [adjust|e]; [|reflexivity].
  destruct (opt_truthy adjust); reflexivity.
Qed.

Lemma negotiate_all_frame (all_offers os : list ResourceOffer)
      (s : NegotiationSession) :
  snd (fst (for_each os (negotiate_one json_loads client svc rq all_offers) s)) = s.
Proof.
  revert s; induction os as [|o os IH]; intros s; cbn [for_each];
    [reflexivity|].
  unfold bind. pose proof (negotiate_one_frame all_offers o s) as H1.
  destruct (negotiate_one json_loads client svc rq all_offers o s)
    as [[[[]|e] s1] t1]; simpl in H1; subst s1; [|reflexivity].
  specialize (IH s).
  destruct (for_each os (negotiate_one json_loads client svc rq all_offers) s)
    as [[r2 s2] t2]. exact IH.
Qed.

Lemma negotiation_round_frame (s : NegotiationSession) :
  offers (snd (fst (negotiation_round json_loads client svc rq s))) = offers s.
Proof.
  unfold negotiation_round, bind, get_session, set_status, yield_, ret.
  destruct (1 <? List.length (offers s))%nat; [|reflexivity].
  pose proof (negotiate_all_frame (offers s) (offers s) (with_status negotiating s)) as H.
  change (offers (with_status negotiating s)) with (offers s).
  destruct (for_each (offers s)
              (negotiate_one json_loads client svc rq (offers s))
              (with_status negotiating s)) as [[r2 s2] t2].
  simpl in H. subst s2. reflexivity.
Qed.

End OfferFrame.

(** C7, evaluated on the code. The negotiation round never changes the
    offers of the session. When the two participants of the demo offer 5
    units at 4500 and both then ask to go down to 4000, the round is
    entered, two [offer_adjusted] events carry the requested price 4000, and
    the offers of the session still cost 4500 at the end. *)
Theorem adjustments_are_not_applied :
  (forall json_loads client svc rq s,
      offers (snd (fst (negotiation_round json_loads client svc rq s)))
      = offers s) /\
  let r := sample_run sample_loads client_adjusting demo_hospitals in
  outcome r = Ok tt /\
  kinds r
  = [K_negotiation_initiated; K_broadcasting_request;
     K_agent_analyzing; K_offer_received;
     K_agent_analyzing; K_offer_received;
     K_negotiation_round_started; K_offer_adjusted; K_offer_adjusted;
     K_making_decision; K_negotiation_completed] /\
  flat_map (fun e => match e with
                     | offer_adjusted _ adjustment =>
                         [py_item adjustment "new_price_per_unit"]
                     | _ => []
                     end) (events r)
  = [Ok (JInt 4000); Ok (JInt 4000)] /\
  option_map (fun s => map offer_price_per_unit (offers s)) (final_session r)
  = Some [JInt 4500; JInt 4500].
Proof.
  split; [intros; apply negotiation_round_frame|].
  vm_compute. repeat split.
Qed.

(* ===================================================================== *)
(** ** Judgments that lack a field; failures of the client *)
(* ===================================================================== *)

(** C3, evaluated on the code. A judgment decodes to [{"can_help": true}]:
    [analyze_request] returns it as it is, whatever the agent and the
    request; it has no [quantity_available], so building the offer raises
    [KeyError] and the negotiation of the demo hospitals stops there. *)
Theorem judgment_fields_are_not_validated :
  (forall a rq,
      analyze_request sample_loads client_can_help_only a rq
      = Ok (JDict [("can_help", JBool true)])) /\
  py_item (JDict [("can_help", JBool true)]) "quantity_available"
  = Raise (KeyError "quantity_available") /\
  let r := sample_run sample_loads client_can_help_only demo_hospitals in
  outcome r = Raise (KeyError "quantity_available") /\
  option_map (fun s => (List.length (offers s), map msg_content (messages s)))
             (final_session r)
  = Some (0%nat, [JDict [("can_help", JBool true)]]).
Proof.
  split; [intros a rq; vm_compute; reflexivity|].
  vm_compute. repeat split.
Qed.

(** C2, evaluated on the code. [negotiate_offer] always returns, and
    [analyze_request] returns the denial when the client raises an error of
    its own, when the answer has no content and when the content does not
    decode. When [create] itself raises [json.JSONDecodeError], the handler
    of that exception in [analyze_request] reads [content] before it is
    bound: [analyze_request] raises [UnboundLocalError], which ends the
    negotiation. *)
Theorem analyze_raises_when_client_fails_to_decode :
  (forall json_loads client a rq competing_offers,
      exists v, negotiate_offer json_loads client a rq competing_offers = Ok v) /\
  (forall json_loads msg a rq,
      analyze_request json_loads (fun _ => Raises (OtherError msg)) a rq
      = Ok (denial ("System error: " ++ msg))) /\
  (forall json_loads a rq,
      analyze_request json_loads (fun _ => Content None) a rq
      = Ok (denial "System error: 'NoneType' object has no attribute 'strip'")) /\
  (forall msg text a rq,
      analyze_request (fun _ => Raise (JSONDecodeError msg))
                      (fun _ => Content (Some text)) a rq
      = Ok (denial "Invalid response format")) /\
  (forall json_loads a rq,
      analyze_request json_loads client_bad_body a rq
      = Raise (UnboundLocalError
                 "cannot access local variable 'content' where it is not associated with a value")) /\
  outcome (sample_run sample_loads client_bad_body demo_hospitals)
  = Raise (UnboundLocalError
             "cannot access local variable 'content' where it is not associated with a value").
Proof.
  repeat split.
  intros json_loads client a rq competing_offers. unfold negotiate_offer.
  destruct (client (NegotiateCall a rq competing_offers)) as [e|c]; simpl;
    [now eexists|].
  destruct (res_bind (extract c) json_loads); simpl; now eexists.
Qed.

(* ===================================================================== *)
(** ** What each phase does to the session *)
(* ===================================================================== *)

Lemma received_offers_app (es1 es2 : list event) :
  received_offers (es1 ++ es2) = received_offers es1 ++ received_offers es2.
Proof.
  induction es1 as [|e es1 IH]; [reflexivity|].
  destruct e; simpl; try exact IH. now rewrite IH.
Qed.

Lemma announced_counts_app (es1 es2 : list event) :
  announced_counts (es1 ++ es2) = announced_counts es1 ++ announced_counts es2.
Proof.
  induction es1 as [|e es1 IH]; [reflexivity|].
  destruct e; simpl; try exact IH. now rewrite IH.
Qed.

Lemma statuses_of_app (t1 t2 : list step) :
  statuses_of (t1 ++ t2) = statuses_of t1 ++ statuses_of t2.
Proof.
  induction t1 as [|[s|e] t1 IH]; simpl; [reflexivity | now rewrite IH | exact IH].
Qed.

Section Tracks.

Variable R : NegotiationSession -> NegotiationSession -> list step -> Prop.
Hypothesis R_refl : forall s, R s s [].
Hypothesis R_comp :
  forall s s1 s2 t1 t2, R s s1 t1 -> R s1 s2 t2 -> R s s2 (t1 ++ t2).

Lemma tracks_bind {A B : Type} (m : Gen A) (k : A -> Gen B) :
  tracks R m -> (forall a, tracks R (k a)) -> tracks R (bind m k).
Proof.
  intros Hm Hk s. unfold bind. specialize (Hm s).
  destruct (m s) as [[[a|e] s1] t1]; [|exact Hm].
  specialize (Hk a s1). destruct (k a s1) as [[r2 s2] t2].
  now apply R_comp with s1.
Qed.

Lemma tracks_for_each {A : Type} (xs : list A) (body : A -> Gen unit) :
  (forall x, In x xs -> tracks R (body x)) -> tracks R (for_each xs body).
Proof.
  induction xs as [|x xs IH]; intros H; cbn [for_each].
  - intros s. apply R_refl.
  - apply tracks_bind; [apply H; now left|].
    intros _. apply IH. intros y Hy. apply H. now right.
Qed.

End Tracks.

Lemma collected_refl (Q : ResourceOffer -> Prop) (s : NegotiationSession) :
  collected Q s s [].
Proof. unfold collected. simpl. rewrite app_nil_r. repeat split; auto. Qed.

Lemma collected_comp (Q : ResourceOffer -> Prop)
      (s s1 s2 : NegotiationSession) (t1 t2 : list step) :
  collected Q s s1 t1 -> collected Q s1 s2 t2 -> collected Q s s2 (t1 ++ t2).
Proof.
  intros [H1 [H2 [H3 [H4 [H5 [H6 H7]]]]]] [K1 [K2 [K3 [K4 [K5 [K6 K7]]]]]].
  unfold collected.
  rewrite events_of_app, received_offers_app, announced_counts_app, statuses_of_app.
  rewrite K1, H1, H3, K3, H4, K4, app_assoc.
  repeat split; try congruence. apply Forall_app. now split.
Qed.

Lemma collected_weaken (Q Q' : ResourceOffer -> Prop)
      (s s' : NegotiationSession) (t : list step) :
  (forall o, Q o -> Q' o) -> collected Q s s' t -> collected Q' s s' t.
Proof.
  intros HQ [H1 [H2 H3]]. split; [exact H1|]. split; [|exact H3].
  revert H2. apply Forall_impl. exact HQ.
Qed.

Lemma quiet_refl (s : NegotiationSession) : quiet s s [].
Proof. now repeat split. Qed.

Lemma quiet_comp (s s1 s2 : NegotiationSession) (t1 t2 : list step) :
  quiet s s1 t1 -> quiet s1 s2 t2 -> quiet s s2 (t1 ++ t2).
Proof.
  intros [H1 [H2 [H3 H4]]] [K1 [K2 [K3 K4]]]. unfold quiet.
  rewrite events_of_app, received_offers_app, announced_counts_app, statuses_of_app.
  rewrite H2, H3, H4, K2, K3, K4. repeat split. congruence.
Qed.

Section Effects.

Variable json_loads : string -> res json.
Variable client : oracle_call -> reply.
Variable svc : MultiAgentCoordinationService.
Variable rq : ResourceRequest.

Local Ltac nothing_collected :=
  unfold collected; simpl; rewrite ?app_nil_r; repeat split; auto.

Lemma collect_one_effect (resource_type hid : string) :
  tracks (collected (offer_from json_loads client svc rq resource_type hid))
         (collect_one json_loads client svc rq resource_type hid).
Proof.
  intros s.
  unfold collect_one, bind, lift, yield_, append_message, append_offer, agent_of.
  destruct (assoc hid (agents svc)) as [a|] eqn:Ha; [|nothing_collected].
  destruct (analyze_request json_loads client a rq) as [analysis|e] eqn:Ean;
    [|nothing_collected].
  destruct analysis as [ | | | | | |d]; try nothing_collected.
  cbn [py_get py_item].
  destruct (opt_truthy (assoc "can_help" d)) eqn:Ech; [|nothing_collected].
  destruct (assoc "quantity_available" d) as [q|] eqn:Eq; [|nothing_collected].
  destruct (assoc "proposed_price_per_unit" d) as [p|] eqn:Ep; [|nothing_collected].
  unfold collected. simpl. repeat split; auto.
  constructor; [|constructor].
  repeat split. exists a, d. repeat split; assumption.
Qed.

Lemma collect_all_effect (resource_type : string) (ids : list string) :
  tracks (collected (fun o => exists hid, In hid ids /\
                       offer_from json_loads client svc rq resource_type hid o))
         (for_each ids (collect_one json_loads client svc rq resource_type)).
Proof.
  apply tracks_for_each.
  - apply collected_refl.
  - apply collected_comp.
  - intros hid Hin s. pose proof (collect_one_effect resource_type hid s) as H.
    destruct (collect_one json_loads client svc rq resource_type hid s)
      as [[r s'] t].
    revert H. apply collected_weaken. intros o Ho. now exists hid.
Qed.

Lemma negotiate_one_quiet (all_offers : list ResourceOffer) (o : ResourceOffer) :
  tracks quiet (negotiate_one json_loads client svc rq all_offers o).
Proof.
  intros s. unfold negotiate_one, bind, lift, yield_, ret.
  destruct (agent_of svc (offer_hospital_id o)) as [a|]; [|apply quiet_refl].
  destruct (negotiate_offer json_loads client a rq all_offers) as [result|e];
    [|apply quiet_refl].
  destruct (py_get result "adjust_offer") as [adjust|e]; [|apply quiet_refl].
  destruct (opt_truthy adjust); now repeat split.
Qed.

Lemma negotiate_all_quiet (all_offers os : list ResourceOffer) :
  tracks quiet (for_each os (negotiate_one json_loads client svc rq all_offers)).
Proof.
  apply tracks_for_each; [apply quiet_refl | apply quiet_comp |].
  intros o _. apply negotiate_one_quiet.
Qed.

(** The negotiation round: entered exactly when the session holds more than
    one offer; it then assigns [negotiating], announces the number of
    offers and changes nothing else. *)
Lemma negotiation_round_effect (s : NegotiationSession) :
  match negotiation_round json_loads client svc rq s with
  | (r, s', t) =>
      if (1 <? List.length (offers s))%nat
      then s' = with_status negotiating s /\
           statuses_of t = [negotiating] /\
           announced_counts (events_of t) = [List.length (offers s)] /\
           received_offers (events_of t) = []
      else r = Ok tt /\ s' = s /\ t = []
  end.
Proof.
  unfold negotiation_round, bind, get_session, set_status, yield_, ret.
  destruct (1 <? List.length (offers s))%nat; [|now repeat split].
  pose proof (negotiate_all_quiet (offers s) (offers s) (with_status negotiating s)) as H.
  change (offers (with_status negotiating s)) with (offers s).
  destruct (for_each (offers s)
              (negotiate_one json_loads client svc rq (offers s))
              (with_status negotiating s)) as [[r2 s2] t2].
  destruct H as [H1 [H2 [H3 H4]]]. subst s2. simpl.
  rewrite H2, H3, H4. now repeat split.
Qed.

(** The decision phase: it raises exactly when [_make_decision] does, with
    the session left in [deciding]; otherwise the decision becomes the
    final agreement and the payload of [negotiation_completed]. *)
Lemma decision_phase_effect (s : NegotiationSession) :
  match decision_phase json_loads client s with
  | (Ok _, s', t) =>
      exists d,
        _make_decision json_loads client (with_status deciding s) = Ok d /\
        s' = with_status completed
               (with_final_agreement d (with_status deciding s)) /\
        t = [Assigned deciding; Yielded making_decision;
             Assigned completed; Yielded (negotiation_completed d)]
  | (Raise e, s', t) =>
      _make_decision json_loads client (with_status deciding s) = Raise e /\
      s' = with_status deciding s /\
      t = [Assigned deciding; Yielded making_decision]
  end.
Proof.
  unfold decision_phase, bind, lift, yield_, set_status, get_session,
    set_final_agreement.
  destruct (_make_decision json_loads client (with_status deciding s)) as [d|e];
    simpl; [exists d|]; now repeat split.
Qed.

(** The body of the generator, phase by phase. *)
Lemma negotiation_body_phases (ids names : list string) (s : NegotiationSession) :
  participant_names svc ids = Ok names ->
  let opening := [Yielded (negotiation_initiated rq); Assigned broadcasting;
                  Yielded (broadcasting_request names);
                  Assigned collecting_responses] in
  let s0 := with_status collecting_responses (with_status broadcasting s) in
  match for_each ids (collect_one json_loads client svc rq (req_resource_type rq)) s0 with
  | (Raise e, s1, t1) =>
      negotiation_body json_loads client svc rq ids s = (Raise e, s1, opening ++ t1)
  | (Ok _, s1, t1) =>
      match negotiation_round json_loads client svc rq s1 with
      | (Raise e, s2, t2) =>
          negotiation_body json_loads client svc rq ids s
          = (Raise e, s2, opening ++ t1 ++ t2)
      | (Ok _, s2, t2) =>
          match decision_phase json_loads client s2 with
          | (r, s3, t3) =>
              negotiation_body json_loads client svc rq ids s
              = (r, s3, opening ++ t1 ++ t2 ++ t3)
          end
      end
  end.
Proof.
  intros Hn opening s0. unfold negotiation_body, opening, s0.
  cbv beta iota delta [bind yield_ set_status lift]. rewrite Hn.
  destruct (for_each ids (collect_one json_loads client svc rq (req_resource_type rq))
              (with_status collecting_responses (with_status broadcasting s)))
    as [[[[]|e] s1] t1]; [|reflexivity].
  destruct (negotiation_round json_loads client svc rq s1) as [[[[]|e] s2] t2];
    [|reflexivity].
  destruct (decision_phase json_loads client s2) as [[r s3] t3]. reflexivity.
Qed.

End Effects.

Section Anatomy.

Variable json_loads : string -> res json.
Variable client : oracle_call -> reply.
Variable svc : MultiAgentCoordinationService.
Variable rq : ResourceRequest.

Lemma collect_one_messages (resource_type hid : string) (s : NegotiationSession) :
  match collect_one json_loads client svc rq resource_type hid s with
  | (r, s', _) =>
      (messages s' = messages s /\ is_ok r = false) \/
      (exists v, messages s'
                 = messages s ++ [{| msg_from := hid; msg_type := "analysis";
                                     msg_content := v |}])
  end.
Proof.
  unfold collect_one, bind, lift, yield_, append_message, append_offer.
  destruct (agent_of svc hid) as [a|]; [|now left].
  destruct (analyze_request json_loads client a rq) as [analysis|e]; [|now left].
  destruct (py_get analysis "can_help") as [can_help|e];
    [|right; now exists analysis].
  destruct (opt_truthy can_help).
  - destruct (py_item analysis "quantity_available");
      [|right; now exists analysis].
    destruct (py_item analysis "proposed_price_per_unit");
      [|right; now exists analysis].
    destruct (py_get analysis "conditions"); [|right; now exists analysis].
    destruct (py_get analysis "reasoning"); right; now exists analysis.
  - destruct (py_get analysis "reasoning"); right; now exists analysis.
Qed.

Lemma collect_all_messages (resource_type : string) (ids : list string)
      (s : NegotiationSession) :
  match for_each ids (collect_one json_loads client svc rq resource_type) s with
  | (r, s', _) =>
      exists done,
        map msg_from (messages s') = map msg_from (messages s) ++ done /\
        conforms r done ids
  end.
Proof.
  revert s; induction ids as [|hid ids IH]; intros s; cbn [for_each].
  - exists []. simpl. rewrite app_nil_r. repeat split. now exists [].
  - unfold bind. pose proof (collect_one_messages resource_type hid s) as H1.
    destruct (collect_one json_loads client svc rq resource_type hid s)
      as [[[[]|e] s1] t1].
    + destruct H1 as [[_ H]|[v Hv]]; [discriminate|].
      specialize (IH s1).
      destruct (for_each ids (collect_one json_loads client svc rq resource_type) s1)
        as [[r2 s2] t2].
      destruct IH as [done [E Hc]]. exists (hid :: done). split.
      * rewrite E, Hv, map_app. simpl. now rewrite <- app_assoc.
      * now apply conforms_cons.
    + destruct H1 as [[H _]|[v Hv]].
      * exists []. rewrite H, app_nil_r. split; [reflexivity|apply conforms_nil].
      * exists [hid]. rewrite Hv, map_app. split; [reflexivity|].
        split; [now exists ids | discriminate].
Qed.

(** Everything a run of the body leaves behind, from a session without
    offers or messages whose participants are registered. *)
Lemma negotiation_body_anatomy (ids : list string) (s : NegotiationSession) :
  (forall hid, In hid ids -> exists a, assoc hid (agents svc) = Some a) ->
  offers s = [] -> messages s = [] -> final_agreement s = None ->
  match negotiation_body json_loads client svc rq ids s with
  | (r, s', t) =>
      offers s' = received_offers (events_of t) /\
      Forall (fun o => exists hid, In hid ids /\
                offer_from json_loads client svc rq (req_resource_type rq) hid o)
             (offers s') /\
      request s' = request s /\
      conforms r (map msg_from (messages s')) ids /\
      (In negotiating (statuses_of t) -> 2 <= List.length (offers s')) /\
      (is_ok r = true -> 2 <= List.length (offers s') ->
       In negotiating (statuses_of t)) /\
      Forall (fun n => n = List.length (offers s')) (announced_counts (events_of t)) /\
      match r with
      | Ok _ => session_status s' = completed /\
                exists d es, final_agreement s' = Some d /\
                             events_of t = es ++ [negotiation_completed d]
      | Raise _ => session_status s' <> completed /\ final_agreement s' = None
      end
  end.
Proof.
  intros Hreg Hoff Hmsg Hfin.
  destruct (participant_names_ok svc ids Hreg) as [names Hn].
  pose proof (@negotiation_body_phases json_loads client svc rq ids names s Hn) as Hph.
  cbv zeta in Hph.
  set (s0 := with_status collecting_responses (with_status broadcasting s)) in *.
  pose proof (collect_all_effect json_loads client svc rq (req_resource_type rq) ids s0) as Hc.
  pose proof (collect_all_messages (req_resource_type rq) ids s0) as Hm.
  destruct (for_each ids (collect_one json_loads client svc rq (req_resource_type rq)) s0)
    as [[r1 s1] t1].
  destruct Hc as [C1 [C2 [C3 [C4 [C5 [C6 C7]]]]]].
  destruct Hm as [done [M1 M2]].
  change (offers s0) with (offers s) in C1. rewrite Hoff in C1. simpl in C1.
  change (messages s0) with (messages s) in M1. rewrite Hmsg in M1. simpl in M1.
  change (final_agreement s0) with (final_agreement s) in C6. rewrite Hfin in C6.
  change (request s0) with (request s) in C7.
  change (session_status s0) with collecting_responses in C5.
  assert (M2' : forall e : exn, conforms (@Raise unit e) done ids).
  { intros e. destruct M2 as [M2 _]. split; [exact M2|discriminate]. }
  assert (C2' : Forall (fun o => exists hid, In hid ids /\
                  offer_from json_loads client svc rq (req_resource_type rq) hid o)
                  (offers s1)) by (rewrite C1; exact C2).
  destruct r1 as [[]|e].
  - pose proof (negotiation_round_effect json_loads client svc rq s1) as Hr.
    destruct (negotiation_round json_loads client svc rq s1) as [[r2 s2] t2].
    destruct (1 <? List.length (offers s1))%nat eqn:Etest.
    + destruct Hr as [R1 [R2 [R3 R4]]]. apply Nat.ltb_lt in Etest.
      destruct r2 as [[]|e].
      * pose proof (decision_phase_effect json_loads client s2) as Hd.
        destruct (decision_phase json_loads client s2) as [[r3 s3] t3].
        rewrite Hph. rewrite !events_of_app, !received_offers_app,
          !announced_counts_app, !statuses_of_app, C3, C4, R2, R3, R4.
        destruct r3 as [[]|e]; [destruct Hd as [d [D1 [D2 D3]]]
                               | destruct Hd as [D1 [D2 D3]]];
          subst s3 t3 s2; simpl; rewrite ?app_nil_r, <- ?C1;
          (split; [reflexivity|]); (split; [exact C2'|]);
          (split; [exact C7|]); (split; [rewrite M1; auto|]);
          (split; [intros _; lia|]); (split; [intros; tauto|]);
          (split; [repeat constructor|]).
        -- split; [reflexivity|]. exists d.
           exists (negotiation_initiated rq :: broadcasting_request names
                   :: events_of t1 ++ events_of t2 ++ [making_decision]).
           split; [reflexivity|]. simpl. now rewrite <- !app_assoc.
        -- split; [discriminate|assumption].
      * rewrite Hph. rewrite !events_of_app, !received_offers_app,
          !announced_counts_app, !statuses_of_app, C3, C4, R2, R3, R4.
        subst s2. simpl. rewrite ?app_nil_r, <- ?C1.
        split; [reflexivity|]. split; [exact C2'|].
        split; [exact C7|]. split; [rewrite M1; auto|].
        split; [intros _; lia|]. split; [discriminate|].
        split; [repeat constructor|].
        split; [discriminate|assumption].
    + destruct Hr as [-> [-> ->]]. apply Nat.ltb_ge in Etest.
      pose proof (decision_phase_effect json_loads client s1) as Hd.
      destruct (decision_phase json_loads client s1) as [[r3 s3] t3].
      rewrite Hph. rewrite !events_of_app, !received_offers_app,
        !announced_counts_app, !statuses_of_app, C3, C4.
      destruct r3 as [[]|e]; [destruct Hd as [d [D1 [D2 D3]]]
                             | destruct Hd as [D1 [D2 D3]]];
        subst s3 t3; simpl; rewrite ?app_nil_r, <- ?C1;
        (split; [reflexivity|]); (split; [exact C2'|]);
        (split; [exact C7|]); (split; [rewrite M1; auto|]);
        (split; [simpl; intuition discriminate|]);
        (split; [intros; lia|]);
        (split; [constructor|]).
      * split; [reflexivity|]. exists d.
        exists (negotiation_initiated rq :: broadcasting_request names
                :: events_of t1 ++ [making_decision]).
        split; [reflexivity|]. simpl. now rewrite <- !app_assoc.
      * split; [discriminate|assumption].
  - rewrite Hph. rewrite !events_of_app, !received_offers_app,
      !announced_counts_app, !statuses_of_app, C3, C4.
    simpl. rewrite ?app_nil_r, <- ?C1.
    split; [reflexivity|]. split; [exact C2'|].
    split; [exact C7|]. split; [rewrite M1; auto|].
    split; [intuition discriminate|]. split; [discriminate|].
    split; [constructor|].
    split; [rewrite C5; discriminate|assumption].
Qed.

End Anatomy.

(* ===================================================================== *)
(** ** Further properties of the orchestrator *)
(* ===================================================================== *)

Lemma assoc_some_in_keys {A : Type} (k : string) (d : list (string * A)) (a : A) :
  assoc k d = Some a -> In k (map fst d).
Proof.
  induction d as [|[k' v] d IH]; simpl; [discriminate|].
  destruct (String.eqb k k') eqn:E.
  - apply String.eqb_eq in E. subst. now left.
  - intros H. right. now apply IH.
Qed.

(** X1. The participants of a negotiation are exactly the registered
    hospitals other than the initiator: the initiator is never asked, and
    looking a participant up in the registry never fails. *)
Theorem participants_are_the_other_agents
        (svc : MultiAgentCoordinationService) (initiator_hospital_id hid : string) :
  In hid (participants_of svc initiator_hospital_id)
  <-> hid <> initiator_hospital_id /\
      exists a, agent_of svc hid = Ok a.
Proof.
  unfold participants_of, agent_of. rewrite filter_In, negb_true_iff.
  split.
  - intros [Hin Hne]. split.
    + intros ->. rewrite String.eqb_refl in Hne. discriminate.
    + destruct (assoc_in_keys _ _ Hin) as [a Ha]. exists a. now rewrite Ha.
  - intros [Hne [a Ha]]. split.
    + destruct (assoc hid (agents svc)) as [a'|] eqn:E; [|discriminate].
      now apply assoc_some_in_keys with a'.
    + apply String.eqb_neq. exact Hne.
Qed.



(** X3. The offers of a session are exactly the offers announced by the
    [offer_received] events, in order; each was built from the judgment of a
    participant whose [can_help] was true, carries that judgment's
    [quantity_available] and [proposed_price_per_unit] unchanged, and has
    the resource type of the request. *)
Theorem session_offers_come_from_judgments
        (json_loads : string -> res json) (client : oracle_call -> reply)
        (svc : MultiAgentCoordinationService)
        (initiator_hospital_id resource_type : string) (quantity : Z)
        (urgency : string) (duration_days : Z) (max_budget : Q)
        (additional_details : option json) :
  let r := initiate_negotiation json_loads client svc initiator_hospital_id
             resource_type quantity urgency duration_days max_budget
             additional_details in
  match final_session r with
  | None => events r = []
  | Some s =>
      offers s = received_offers (events r) /\
      req_resource_type (request s) = resource_type /\
      Forall (fun o => exists hid,
                In hid (participants_of svc initiator_hospital_id) /\
                offer_from json_loads client svc (request s) resource_type hid o)
             (offers s)
  end.
Proof.
  intros r. unfold r, initiate_negotiation, events.
  destruct (agent_of svc initiator_hospital_id) as [a|e];
    cbn [final_session steps]; [|reflexivity].
  match goal with
  | |- context [negotiation_body ?l ?c ?sv ?q ?ids ?ses] =>
      pose proof (@negotiation_body_anatomy l c sv q ids ses
                    (participants_registered svc initiator_hospital_id)
                    eq_refl eq_refl eq_refl) as H;
      destruct (negotiation_body l c sv q ids ses) as [[ro so] t]
  end.
  cbn [final_session steps].
  destruct H as [H1 [H2 [H3 _]]]. rewrite H3. cbn [request req_resource_type].
  now repeat split.
Qed.



(** X6. The negotiation round is entered only when the session holds two or
    more offers, and always then when the generator returns; the
    [negotiation_round_started] event announces the number of offers of the
    session. *)
Theorem round_entered_exactly_with_two_offers
        (json_loads : string -> res json) (client : oracle_call -> reply)
        (svc : MultiAgentCoordinationService)
        (initiator_hospital_id resource_type : string) (quantity : Z)
        (urgency : string) (duration_days : Z) (max_budget : Q)
        (additional_details : option json) :
  let r := initiate_negotiation json_loads client svc initiator_hospital_id
             resource_type quantity urgency duration_days max_budget
             additional_details in
  match final_session r with
  | None => status_history r = []
  | Some s =>
      (In negotiating (status_history r) -> 2 <= List.length (offers s)) /\
      (outcome r = Ok tt -> 2 <= List.length (offers s) ->
       In negotiating (status_history r)) /\
      Forall (fun n => n = List.length (offers s)) (announced_counts (events r))
  end.
Proof.
  intros r. unfold r, initiate_negotiation, agent_of, status_history, events.
  destruct (assoc initiator_hospital_id (agents svc)) as [a|];
    cbn [final_session steps outcome]; [|reflexivity].
  match goal with
  | |- context [negotiation_body ?l ?c ?sv ?q ?ids ?ses] =>
      pose proof (@negotiation_body_anatomy l c sv q ids ses
                    (participants_registered svc initiator_hospital_id)
                    eq_refl eq_refl eq_refl) as H;
      destruct (negotiation_body l c sv q ids ses) as [[ro so] t]
  end.
  cbn [final_session steps outcome].
  destruct H as [_ [_ [_ [_ [H1 [H2 [H3 _]]]]]]].
  split; [|split; [|exact H3]].
  - intros [Hi|Hi]; [discriminate|now apply H1].
  - intros Hok Hlen. right. apply H2; [now rewrite Hok | exact Hlen].
Qed.

Lemma total_costs_raise (os : list ResourceOffer) (e : exn) :
  total_costs os = Raise e -> e = TypeError "unsupported operand type(s) for *".
Proof.
  induction os as [|o os IH]; simpl; [discriminate|].
  unfold py_mul_check.
  destruct ((is_number (offer_quantity o) && is_number (offer_price_per_unit o))
            || (is_sequence (offer_quantity o) && is_integer (offer_price_per_unit o))
            || (is_integer (offer_quantity o) && is_sequence (offer_price_per_unit o)));
    simpl; [exact IH | congruence].
Qed.

Lemma total_costs_numeric (os : list ResourceOffer) :
  Forall numeric_offer os -> total_costs os = Ok tt.
Proof.
  induction 1 as [|o os [Hq Hp] Hos IH]; [reflexivity|]. simpl.
  unfold py_mul_check. rewrite Hq, Hp. simpl. exact IH.
Qed.

Lemma make_decision_returns (json_loads : string -> res json)
      (client : oracle_call -> reply) (s : NegotiationSession) :
  total_costs (offers s) = Ok tt ->
  exists d, _make_decision json_loads client s = Ok d.
Proof.
  intros H. unfold _make_decision. rewrite H.
  destruct (offers s); [now eexists|]. simpl.
  destruct (client (DecisionCall s)) as [e|[c|]]; simpl; try now eexists.
  destruct (json_loads (_extract_json c)); simpl; now eexists.
Qed.


Section Liveness.

Variable json_loads : string -> res json.
Variable client : oracle_call -> reply.
Variable svc : MultiAgentCoordinationService.
Variable rq : ResourceRequest.

Hypothesis Hjudgments : judgments_usable json_loads client svc.
Hypothesis Hadjustments : adjustments_are_dicts json_loads client svc.

Lemma collect_all_ok (resource_type : string) (ids : list string) :
  (forall hid, In hid ids -> exists a, assoc hid (agents svc) = Some a) ->
  forall s, exists s' t,
    for_each ids (collect_one json_loads client svc rq resource_type) s
    = (Ok tt, s', t).
Proof.
  induction ids as [|hid ids IH]; intros Hreg s; cbn [for_each].
  - now exists s, [].
  - destruct (Hreg hid (or_introl eq_refl)) as [a Ha].
    destruct (Hjudgments hid rq Ha) as [v [Ev [d [-> Hd]]]].
    assert (Hone : exists s1 t1,
               collect_one json_loads client svc rq resource_type hid s
               = (Ok tt, s1, t1)).
    { unfold collect_one, bind, lift, yield_, append_message, append_offer,
        agent_of.
      rewrite Ha, Ev. cbn [py_get py_item].
      destruct (opt_truthy (assoc "can_help" d)).
      - destruct (Hd eq_refl) as [q [p [Eq [Ep _]]]]. rewrite Eq, Ep.
        now do 2 eexists.
      - now do 2 eexists. }
    destruct Hone as [s1 [t1 E1]].
    destruct (IH (fun h Hh => Hreg h (or_intror Hh)) s1) as [s2 [t2 E2]].
    unfold bind. rewrite E1, E2. now do 2 eexists.
Qed.

Lemma negotiate_all_ok (all_offers os : list ResourceOffer) :
  Forall (fun o => exists a, assoc (offer_hospital_id o) (agents svc) = Some a) os ->
  forall s, exists s' t,
    for_each os (negotiate_one json_loads client svc rq all_offers) s
    = (Ok tt, s', t).
Proof.
  induction 1 as [|o os [a Ha] Hos IH]; intros s; cbn [for_each].
  - now exists s, [].
  - destruct (Hadjustments (offer_hospital_id o) rq all_offers Ha) as [d Ed].
    assert (Hone : exists s1 t1,
               negotiate_one json_loads client svc rq all_offers o s
               = (Ok tt, s1, t1)).
    { unfold negotiate_one, bind, lift, yield_, ret, agent_of.
      rewrite Ha, Ed. cbn [py_get].
      destruct (opt_truthy (assoc "adjust_offer" d)); now do 2 eexists. }
    destruct Hone as [s1 [t1 E1]]. destruct (IH s1) as [s2 [t2 E2]].
    unfold bind. rewrite E1, E2. now do 2 eexists.
Qed.

Lemma negotiation_body_returns (ids : list string) (s : NegotiationSession) :
  (forall hid, In hid ids -> exists a, assoc hid (agents svc) = Some a) ->
  offers s = [] ->
  exists s' t, negotiation_body json_loads client svc rq ids s = (Ok tt, s', t).
Proof.
  intros Hreg Hoff.
  destruct (participant_names_ok svc ids Hreg) as [names Hn].
  pose proof (@negotiation_body_phases json_loads client svc rq ids names s Hn) as Hph.
  cbv zeta in Hph.
  set (s0 := with_status collecting_responses (with_status broadcasting s)) in *.
  destruct (@collect_all_ok (req_resource_type rq) ids Hreg s0) as [s1 [t1 E1]].
  pose proof (collect_all_effect json_loads client svc rq (req_resource_type rq) ids s0) as Hc.
  rewrite E1 in Hph, Hc. destruct Hc as [C1 [C2 _]].
  change (offers s0) with (offers s) in C1. rewrite Hoff in C1. simpl in C1.
  rewrite <- C1 in C2.
  assert (Hnum : Forall numeric_offer (offers s1)).
  { revert C2. apply Forall_impl.
    intros o [hid [_ [_ [_ [a [d [Ha [_ [Ea [Ech [Eq Ep]]]]]]]]]]].
    destruct (Hjudgments hid rq Ha) as [v [Ev [d' [-> Hd]]]].
    rewrite Ea in Ev. inversion Ev; subst d'.
    destruct (Hd Ech) as [q [p [Eq' [Ep' [Hq Hp]]]]].
    rewrite Eq in Eq'. rewrite Ep in Ep'. inversion Eq'; inversion Ep'; subst.
    now split. }
  assert (Hknown : Forall (fun o => exists a,
                      assoc (offer_hospital_id o) (agents svc) = Some a)
                     (offers s1)).
  { revert C2. apply Forall_impl.
    intros o [hid [_ [_ [Hid [a [d [Ha _]]]]]]]. exists a. now rewrite Hid. }
  assert (Hround : exists s2 t2,
             negotiation_round json_loads client svc rq s1 = (Ok tt, s2, t2) /\
             offers s2 = offers s1).
  { pose proof (negotiation_round_frame json_loads client svc rq s1) as Hf.
    unfold negotiation_round, bind, get_session, set_status, yield_, ret in *.
    destruct (1 <? List.length (offers s1))%nat.
    - destruct (@negotiate_all_ok (offers s1) (offers s1) Hknown
                  (with_status negotiating s1))
        as [s2 [t2 E2]].
      change (offers (with_status negotiating s1)) with (offers s1) in Hf.
      rewrite E2 in *. simpl in Hf. now do 2 eexists.
    - now do 2 eexists. }
  destruct Hround as [s2 [t2 [E2 Ho2]]]. rewrite E2 in Hph.
  pose proof (decision_phase_effect json_loads client s2) as Hd.
  destruct (decision_phase json_loads client s2) as [[[[]|e] s3] t3].
  - rewrite Hph. now do 2 eexists.
  - exfalso. destruct Hd as [Hd _].
    destruct (@make_decision_returns json_loads client (with_status deciding s2))
      as [d Hm]; [|congruence].
    change (offers (with_status deciding s2)) with (offers s2).
    rewrite Ho2. now apply total_costs_numeric.
Qed.

End Liveness.



(* ===================================================================== *)
(** ** Fences and white space *)
(* ===================================================================== *)

Lemma string_app_assoc (a b c : string) :
  ((a ++ b) ++ c)%string = (a ++ b ++ c)%string.
Proof. induction a as [|x a IH]; simpl; [reflexivity | now rewrite IH]. Qed.

Lemma string_app_empty_r (a : string) : (a ++ EmptyString)%string = a.
Proof. induction a as [|x a IH]; simpl; [reflexivity | now rewrite IH]. Qed.

Lemma drop_app (a b : string) : drop (String.length a) (a ++ b) = b.
Proof. induction a as [|x a IH]; simpl; [reflexivity | exact IH]. Qed.

(** A text contained in a part of [s] is contained in [s]. *)
Lemma contains_inside (needle a mid b : string) :
  contains needle mid = true -> contains needle (a ++ mid ++ b) = true.
Proof.
  rewrite !contains_app. intros [pre [post ->]].
  exists (a ++ pre)%string, (post ++ b)%string.
  now rewrite !string_app_assoc.
Qed.

Lemma contains_shorter (x y s : string) :
  contains (x ++ y) s = true -> contains x s = true.
Proof.
  rewrite !contains_app. intros [pre [post ->]].
  exists pre, (y ++ post)%string. now rewrite string_app_assoc.
Qed.

Lemma partition_correct (sep s b a : string) :
  partition sep s = Some (b, a) -> s = (b ++ sep ++ a)%string.
Proof.
  revert b a; induction s as [|c s IH]; intros b a; cbn [partition].
  - destruct sep as [|x sep]; simpl; [|discriminate].
    intros H; inversion H; subst. reflexivity.
  - destruct (prefix sep (String c s)) eqn:E.
    + intros H; inversion H; subst. apply prefix_app in E.
      destruct E as [post E]. simpl. rewrite E at 1. f_equal.
      rewrite E. now rewrite drop_app.
    + destruct (partition sep s) as [[b' a']|]; [|discriminate].
      intros H; inversion H; subst. simpl. f_equal. now apply IH.
Qed.

Lemma partition_none (sep s : string) :
  partition sep s = None -> contains sep s = false.
Proof.
  induction s as [|c s IH]; cbn [partition contains].
  - destruct (prefix sep EmptyString); [discriminate | reflexivity].
  - destruct (prefix sep (String c s)); [discriminate|].
    destruct (partition sep s) as [[b a]|]; [discriminate|].
    intros _. now apply IH.
Qed.

Lemma contains_partition (sep s : string) :
  contains sep s = true -> exists b a, partition sep s = Some (b, a).
Proof.
  intros H. destruct (partition sep s) as [[b a]|] eqn:E; [now exists b, a|].
  apply partition_none in E. congruence.
Qed.

(** The text before the first occurrence of [sep] holds no [sep]. *)
Lemma partition_before (c0 : ascii) (sep' s b a : string) :
  partition (String c0 sep') s = Some (b, a) ->
  contains (String c0 sep') b = false.
Proof.
  revert b a; induction s as [|c s IH]; intros b a; cbn [partition].
  - destruct (prefix (String c0 sep') EmptyString); [|discriminate].
    intros H; inversion H. reflexivity.
  - destruct (prefix (String c0 sep') (String c s)) eqn:E.
    + intros H; inversion H. reflexivity.
    + destruct (partition (String c0 sep') s) as [[b' a']|] eqn:Ep; [|discriminate].
      intros H; inversion H; subst. cbn [contains].
      rewrite (IH _ _ eq_refl), orb_false_r.
      destruct (prefix (String c0 sep') (String c b')) eqn:E'; [|reflexivity].
      apply prefix_app in E'. destruct E' as [post E'].
      apply partition_correct in Ep.
      assert (Hp : prefix (String c0 sep') (String c s) = true).
      { apply prefix_app. exists (post ++ String c0 sep' ++ a)%string.
        rewrite Ep. change (String c (b' ++ String c0 sep' ++ a))%string
          with (String c b' ++ String c0 sep' ++ a)%string.
        rewrite E'. now rewrite string_app_assoc. }
      congruence.
Qed.

(** When the text before holds no occurrence of the first character of
    [sep], the first occurrence of [sep] is the one written. *)
Lemma partition_first (c0 : ascii) (sep' pre rest : string) :
  contains (String c0 EmptyString) pre = false ->
  partition (String c0 sep') (pre ++ String c0 sep' ++ rest)
  = Some (pre, rest).
Proof.
  induction pre as [|c pre IH]; intros H.
  - change (EmptyString ++ String c0 sep' ++ rest)%string
      with (String c0 sep' ++ rest)%string.
    unfold partition.
    assert (Hp : prefix (String c0 sep') (String c0 sep' ++ rest) = true)
      by (apply prefix_app; now exists rest).
    destruct (String c0 sep' ++ rest)%string eqn:E; [discriminate|].
    fold partition. rewrite Hp. f_equal. f_equal. rewrite <- E.
    apply drop_app.
  - cbn [contains] in H. apply orb_false_iff in H. destruct H as [H1 H2].
    simpl in H1. destruct (ascii_dec c0 c) as [->|Hne].
    + destruct pre; discriminate.
    + change (String c pre ++ String c0 sep' ++ rest)%string
        with (String c (pre ++ String c0 sep' ++ rest)%string).
      assert (Hp : prefix (String c0 sep')
                     (String c (pre ++ String c0 sep' ++ rest)) = false).
      { simpl. destruct (ascii_dec c0 c); [contradiction | reflexivity]. }
      cbn [partition]. rewrite Hp, (IH H2). reflexivity.
Qed.

Lemma lstrip_suffix (s : string) : exists a, s = (a ++ lstrip s)%string.
Proof.
  induction s as [|c s [a IH]]; simpl; [now exists EmptyString|].
  destruct (is_space c).
  - exists (String c a). simpl. now rewrite <- IH.
  - now exists EmptyString.
Qed.

Lemma rstrip_prefix (s : string) : exists b, s = (rstrip s ++ b)%string.
Proof.
  induction s as [|c s [b IH]]; simpl; [now exists EmptyString|].
  destruct (rstrip s) as [|c' r] eqn:E.
  - destruct (is_space c).
    + now exists (String c s).
    + exists s. reflexivity.
  - exists b. simpl. f_equal. exact IH.
Qed.

Lemma strip_inside (s : string) : exists a b, s = (a ++ strip s ++ b)%string.
Proof.
  unfold strip. destruct (lstrip_suffix s) as [a Ha].
  destruct (rstrip_prefix (lstrip s)) as [b Hb].
  exists a, b. now rewrite <- Hb.
Qed.

Lemma strip_keeps_absent (needle s : string) :
  contains needle s = false -> contains needle (strip s) = false.
Proof.
  intros H. destruct (contains needle (strip s)) eqn:E; [|reflexivity].
  destruct (strip_inside s) as [a [b Hs]].
  rewrite Hs in H. rewrite (@contains_inside needle a (strip s) b E) in H.
  discriminate.
Qed.

Lemma rstrip_idempotent (s : string) : rstrip (rstrip s) = rstrip s.
Proof.
  induction s as [|c s IH]; [reflexivity|]. cbn [rstrip].
  destruct (rstrip s) as [|c' r] eqn:E.
  - destruct (is_space c) eqn:Ec; [reflexivity|].
    cbn [rstrip]. now rewrite Ec.
  - cbn [rstrip]. cbn [rstrip] in IH. rewrite IH. reflexivity.
Qed.

Lemma lstrip_rstrip_lstrip (s : string) :
  lstrip (rstrip (lstrip s)) = rstrip (lstrip s).
Proof.
  induction s as [|c s IH]; [reflexivity|]. cbn [lstrip].
  destruct (is_space c) eqn:Ec; [exact IH|].
  cbn [rstrip]. destruct (rstrip s) as [|c' r]; rewrite ?Ec; cbn [lstrip];
    now rewrite Ec.
Qed.

Lemma strip_idempotent (s : string) : strip (strip s) = strip s.
Proof.
  unfold strip. now rewrite lstrip_rstrip_lstrip, rstrip_idempotent.
Qed.

(** The text between the fences holds no fence. *)
Lemma fenced_clean (c0 : ascii) (open' s : string) :
  contains (String c0 open') s = true ->
  contains "```" (fenced (String c0 open') s) = false.
Proof.
  intros H. unfold fenced.
  destruct (contains_partition _ _ H) as [b [a E]]. rewrite E.
  destruct (partition "```" a) as [[inside rest]|] eqn:Ea.
  - now apply partition_before with a rest.
  - now apply partition_none.
Qed.

(** X9. What [_extract_json] returns holds no code fence and no white space
    at either end, and extracting from it again returns it unchanged. *)
Theorem extract_json_idempotent (content : string) :
  contains "```" (_extract_json content) = false /\
  strip (_extract_json content) = _extract_json content /\
  _extract_json (_extract_json content) = _extract_json content.
Proof.
  assert (H : contains "```" (_extract_json content) = false /\
              strip (_extract_json content) = _extract_json content).
  { unfold _extract_json.
    destruct (contains "```json" (strip content)) eqn:E1.
    - split; [|apply strip_idempotent].
      apply strip_keeps_absent. now apply fenced_clean.
    - destruct (contains "```" (strip content)) eqn:E2.
      + split; [|apply strip_idempotent].
        apply strip_keeps_absent. now apply fenced_clean.
      + split; [exact E2 | apply strip_idempotent]. }
  destruct H as [H1 H2]. split; [exact H1|]. split; [exact H2|].
  unfold _extract_json at 1. rewrite H2, H1.
  destruct (contains "```json" (_extract_json content)) eqn:E; [|reflexivity].
  apply (@contains_shorter "```" "json") in E. congruence.
Qed.



(* ===================================================================== *)
(** ** Further properties of the negotiation workflow *)
(* ===================================================================== *)

Lemma price_le_refl (o : LangGraph.offer) : price_le o o.
Proof.
  unfold price_le. destruct (LangGraph.total_price o); [apply Qle_refl | exact I].
Qed.

(** X11. Without a model the top choice of the evaluation is an offer of the
    state that no other offer undercuts, an offer without total price
    counting as the dearest; the ranking keeps every offer; there is no top
    choice exactly when there is no offer. *)
Theorem top_choice_is_cheapest (state : LangGraph.NegotiationState) :
  exists ev,
    LangGraph.offer_evaluations (LangGraph._evaluate_offers state) = Some ev /\
    Permutation (LangGraph.offers state) (LangGraph.ranked_offers ev) /\
    match LangGraph.top_choice ev with
    | Some top =>
        In top (LangGraph.offers state) /\
        Forall (price_le top) (LangGraph.offers state)
    | None => LangGraph.offers state = []
    end.
Proof.
  unfold LangGraph._evaluate_offers.
  destruct (LangGraph.offers state) as [|o os] eqn:Eo.
  - eexists. split; [reflexivity|]. split; [constructor | reflexivity].
  - eexists. split; [reflexivity|]. cbn [LangGraph.ranked_offers LangGraph.top_choice].
    pose proof (sorted_perm LangGraph.sort_key LangGraph.key_ltb (o :: os)) as Hp.
    pose proof (@sorted_sorted _ _ LangGraph.sort_key LangGraph.key_ltb
                  key_ltb_asym key_ltb_negtrans (o :: os)) as Hs.
    unfold LangGraph.rank_by_price.
    split; [exact Hp|].
    destruct (sorted LangGraph.sort_key LangGraph.key_ltb (o :: os))
      as [|top rest] eqn:E.
    + apply Permutation_sym, Permutation_nil in Hp. discriminate.
    + cbn [hd_error]. split.
      * apply (Permutation_in top (Permutation_sym Hp)). now left.
      * apply (Permutation_Forall (Permutation_sym Hp)).
        inversion Hs as [|? ? _ Hall]; subst.
        constructor; [apply price_le_refl|].
        revert Hall. apply Forall_impl. intros x Hx. now apply price_le_key.
Qed.

Lemma fallback_round_bounds (n : nat) (c t : Q) :
  (0 <= c)%Q -> (t <= c)%Q ->
  let r := LangGraph.negotiate_round n c t in
  (0 <= LangGraph.their_response r)%Q /\
  (t <= LangGraph.their_response r)%Q /\
  (LangGraph.their_response r <= c)%Q /\
  LangGraph.our_offer r = LangGraph.their_response r.
Proof.
  intros H0 Ht. cbn. unfold LangGraph.py_max.
  destruct (LangGraph.Qlt_bool (c - c * (5 # 100)) t) eqn:E.
  - apply Qlt_bool_true in E. repeat split; lra.
  - apply Qlt_bool_false in E. repeat split; lra.
Qed.





Section ModelRounds.

Variable json_loads : string -> res json.
Variable llm : nat -> Q -> reply.

Lemma model_round_fault (n : nat) (c t : Q) (e : exn) :
  Workflow.model_round_or_fault json_loads llm n c t = Raise e ->
  e = KeyError "their_response".
Proof.
  unfold Workflow.model_round_or_fault.
  destruct (Workflow.model_move json_loads llm n c t); simpl; congruence.
Qed.

Lemma model_round_three_accepted (c t : Q) (r : Workflow.model_round) :
  Workflow.model_round_or_fault json_loads llm 3 c t = Ok r ->
  Workflow.accepted r = true.
Proof.
  unfold Workflow.model_round_or_fault, Workflow.model_move.
  destruct (match llm 3%nat c with
            | Raises e => Raise e
            | Content x => Workflow.decode_answer json_loads x
            end) as [move|]; simpl; [|discriminate].
  destruct (py_item move "counter_offer") as [v|]; simpl; [|discriminate].
  destruct (Workflow.number_of v) as [q|]; simpl; [|discriminate].
  destruct (py_item move "reasoning"); simpl; [|discriminate].
  intros H; inversion H; subst; simpl.
  now destruct (Qle_bool (t * (95 # 100)) q).
Qed.

End ModelRounds.


Lemma inject_Z_nonzero (z : Z) : z <> 0%Z -> ~ (inject_Z z == 0)%Q.
Proof. unfold Qeq. simpl. lia. Qed.



